(** * PWA build tools: HTML header and image generation

    A shallow embedding of the two build steps of locomote-sh/core-build-tools:

    - [HeaderGenerator]: lib/make-html-header.js, the HTML head section of a
      PWA page, printed line by line through an indenting printer;
    - [AssetGenerator]: the image build step (app icons and splashscreens),
      which probes for files, copies pre-scaled images and otherwise calls
      the external [convert] tool.

    JavaScript values are modelled by [JS.value]; the asynchronous,
    failing, effectful calls of the image step by a small monad that threads
    the state of the outside world, stops at the first rejected call and
    records every call made. *)

From Stdlib Require Import String Ascii List Bool ZArith NArith Lia.
From Stdlib Require Import DecimalString.
Import ListNotations.

Local Open Scope string_scope.
Local Open Scope list_scope.

(** String concatenation, the [+] of the sources on strings. *)
Infix "+:+" := String.append (at level 60, right associativity).

(* ================================================================== *)
(** ** JavaScript values and string helpers *)

Module JS.

(** The values a manifest field can hold.  Numbers are the integral ones:
    [Num n] is the Number value for the integer [n], the double nearest to
    it, as a JSON numeral gives; objects and arrays are not manifest leaf
    values. *)
Inductive value : Type :=
| Undefined
| Null
| Bool (b : bool)
| Num (n : Z)
| Str (s : string).

(** The line feed, the tabulation and the double quote. *)
Definition nl : string := String "010"%char EmptyString.
Definition tab : string := String "009"%char EmptyString.
Definition dquote : ascii := "034"%char.

(** Source strings are written here with an apostrophe wherever the
    JavaScript literal has a double quote; [q] puts the double quotes
    back.  No literal of the sources contains an apostrophe. *)
Fixpoint q (s : string) : string :=
  match s with
  | EmptyString => EmptyString
  | String c s' => String (if Ascii.eqb c "'"%char then dquote else c) (q s')
  end.

(** The decimal numeral of a natural number. *)
Definition decimal (m : Z) : string :=
  NilZero.string_of_uint (N.to_uint (Z.to_N m)).

(** The Number value for a positive integer: the nearest double, ties to
    the even significand.  Below 2^53 every integer is a double; above, the
    53 leading bits are kept and the rest rounds.  A result of 2^1024 or
    more stands for Infinity. *)
Definition round_double (m : Z) : Z :=
  (if m <? 2 ^ 53 then m
   else
     let shift := Z.log2 m - 52 in
     let q := Z.shiftr m shift in
     let r := m - Z.shiftl q shift in
     let half := Z.shiftl 1 (shift - 1) in
     let q' := if (half <? r) || ((r =? half) && Z.odd q) then q + 1 else q in
     Z.shiftl q' shift)%Z.

(** The decimal value that Number::toString prints for the double [v]: the
    one with the fewest significant digits whose Number value is [v] and,
    among those, the closest to [v], the even one on a tie.  [k] is the
    number of significant digits tried, [n] the number of digits of [v];
    seventeen digits always suffice. *)
Fixpoint shortest (fuel : nat) (k n v : Z) : Z :=
  match fuel with
  | O => v
  | S fuel' =>
      (let p := 10 ^ Z.max 0 (n - k) in
       let lo := (v / p) * p in
       let hi := lo + p in
       let lo_ok := round_double lo =? v in
       let hi_ok := round_double hi =? v in
       if lo_ok && hi_ok then
         if v - lo <? hi - v then lo
         else if hi - v <? v - lo then hi
         else if Z.even (v / p) then lo else hi
       else if lo_ok then lo
       else if hi_ok then hi
       else shortest fuel' (k + 1) n v)%Z
  end.

Fixpoint strip_zeros (rev_digits : list ascii) : list ascii :=
  match rev_digits with
  | c :: r => if Ascii.eqb c "0" then strip_zeros r else rev_digits
  | [] => []
  end.

(** How a decimal value is written: in full up to twenty-one digits, and
    beyond in exponent form, the significant digits with a point after the
    first, [e+] and the exponent. *)
Definition print_decimal (c : Z) : string :=
  let digits := decimal c in
  let n := String.length digits in
  if (n <=? 21)%nat then digits
  else
    match rev (strip_zeros (rev (list_ascii_of_string digits))) with
    | [] => digits
    | [d] => String d "e+" +:+ decimal (Z.of_nat n - 1)
    | d :: ds =>
        String d "." +:+ string_of_list_ascii ds +:+ "e+"
          +:+ decimal (Z.of_nat n - 1)
    end.

Definition Number_toString_pos (m : Z) : string :=
  let v := round_double m in
  if (2 ^ 1024 <=? v)%Z then "Infinity"
  else print_decimal (shortest 17 1 (Z.of_nat (String.length (decimal v))) v).

(** Number::toString of the Number value for the integer [n]. *)
Definition string_of_Z (n : Z) : string :=
  match n with
  | Z0 => "0"
  | Zpos _ => Number_toString_pos n
  | Zneg _ => "-" +:+ Number_toString_pos (- n)
  end.

(** Number::toString on the numbers of the definition tables: pixel sizes
    and ratios. *)
Definition string_of_N (n : N) : string := string_of_Z (Z.of_N n).

(** ToString, as applied by template literals and by [%s]. *)
Definition to_string (v : value) : string :=
  match v with
  | Undefined => "undefined"
  | Null => "null"
  | Bool true => "true"
  | Bool false => "false"
  | Num n => string_of_Z n
  | Str s => s
  end.

(** ToBoolean. *)
Definition truthy (v : value) : bool :=
  match v with
  | Undefined | Null => false
  | Bool b => b
  | Num n => negb (n =? 0)%Z
  | Str s => negb (s =? "")
  end.

(** [v === 'lit']: strict equality with a string literal. *)
Definition strict_eq_str (v : value) (lit : string) : bool :=
  match v with
  | Str s => s =? lit
  | _ => false
  end.

(** [v == 'lit']: loose equality with a string literal that is not a
    numeral (a number or a boolean is compared with NaN, [null] and
    [undefined] only equal each other). *)
Definition loose_eq_str (v : value) (lit : string) : bool :=
  match v with
  | Str s => s =? lit
  | _ => false
  end.

(** A value that is a string or [null], as the paths of the image step. *)
Definition of_path (p : option string) : value :=
  match p with
  | Some s => Str s
  | None => Null
  end.

(** [''.padEnd(n, ' ')] and, in general, [s.padEnd(n, c)]. *)
Fixpoint repeat_char (c : ascii) (n : nat) : string :=
  match n with
  | O => EmptyString
  | S n' => String c (repeat_char c n')
  end.

Definition padEnd (s : string) (n : nat) (c : ascii) : string :=
  s +:+ repeat_char c (n - String.length s).

(** String.prototype.trim on the one-byte white space and line
    terminators: space, tab, LF, VT, FF, CR. *)
Definition is_space (c : ascii) : bool :=
  let n := N_of_ascii c in
  ((n =? 32) || ((9 <=? n) && (n <=? 13)))%N.

Fixpoint trimStart (s : string) : string :=
  match s with
  | EmptyString => EmptyString
  | String c s' => if is_space c then trimStart s' else s
  end.

Definition reverse (s : string) : string :=
  string_of_list_ascii (rev (list_ascii_of_string s)).

Definition trim (s : string) : string :=
  reverse (trimStart (reverse (trimStart s))).

End JS.

(* ================================================================== *)
(** ** Data model *)

(** An image definition [{ target, w, h }] of the settings tables. *)
Module Def.
Record t : Type := make { target : string; w : N; h : N }.
End Def.

(** A splashscreen definition [{ target, w, h, dw, dh, dd }]: an image
    definition with the device width, height and pixel ratio. *)
Module Splash.
Record t : Type := make { image : Def.t; dw : N; dh : N; dd : N }.
Definition target (d : t) : string := Def.target (image d).
Definition w (d : t) : N := Def.w (image d).
Definition h (d : t) : N := Def.h (image d).
End Splash.

(** [pwa.ios] of the manifest. *)
Record IOS : Type := {
  statusBarStyle : JS.value;
  showInstallBanner : JS.value
}.

(** [pwa] of the manifest. *)
Record PWA : Type := {
  name : JS.value;
  short_name : JS.value;
  background_color : JS.value;
  display : JS.value;
  ios : IOS
}.

Record Manifest : Type := { pwa : PWA }.

Record BuildOptions : Type := { indentSize : option Z }.

(** The exports of [./settings] that the two generators read. *)
Class Settings : Type := {
  AppIconDefs : list Def.t;
  SplashscreenDefs : list Splash.t;
  InstallBannerJSURL : string;
  InstallBannerCSSURL : string
}.

(* ================================================================== *)
(** ** The outside world of the generators *)

(** The outcome of an awaited call: fulfilled with a value, or rejected. *)
Inductive result (A : Type) : Type :=
| Ok (a : A)
| Rejected (reason : string).

Arguments Ok {A} a.
Arguments Rejected {A} reason.

(** The calls into [./manifest], [./support] and the process runner; the
    index is the type of the value a fulfilled call gives. *)
Inductive call : Type -> Type :=
| loadManifest (opts : BuildOptions) (source : string) : call Manifest
| rmrf (path : string) : call unit
| exists_ (path : string) : call bool
| ensureDir (path : string) : call unit
| cp (src dst : string) : call unit
| exec (cmd : string) (args : list JS.value) : call unit.

(** What a run leaves behind: every call in the order it was made (a probe
    with its answer, [None] when the probe was rejected) and every line
    written with [console.log]. *)
Inductive event : Type :=
| EvLoadManifest (opts : BuildOptions) (source : string)
| EvRmrf (path : string)
| EvExists (path : string) (answer : option bool)
| EvEnsureDir (path : string)
| EvCp (src dst : string)
| EvExec (cmd : string) (args : list JS.value)
| EvLog (message : string).

Definition event_of {X : Type} (c : call X) : result X -> event :=
  match c in call X return result X -> event with
  | loadManifest opts source => fun _ => EvLoadManifest opts source
  | rmrf path => fun _ => EvRmrf path
  | exists_ path =>
      fun r => EvExists path (match r with Ok b => Some b | Rejected _ => None end)
  | ensureDir path => fun _ => EvEnsureDir path
  | cp src dst => fun _ => EvCp src dst
  | exec cmd args => fun _ => EvExec cmd args
  end.

(** The collaborators are not part of the two generators: a host gives the
    states of the outside world and says how each call answers and changes
    it. *)
Class Host : Type := {
  World : Type;
  handle : forall X : Type, call X -> World -> result X * World
}.

(** Node's [path] module, as far as the image step uses it. *)
Class PathLib : Type := {
  Path_join : string -> string -> string;
  Path_dirname : string -> string
}.

(** The free identifiers of the image step's file: [__dirname], given by the
    module loader, and [DefaultStdSplashscreenPath], which the file reads and
    never binds.  ([exec], which [scaleImage] calls, is not bound in the file
    either; it is the call [exec] above, answered by the host.) *)
Class ModuleScope : Type := {
  dirname__ : string;
  DefaultStdSplashscreenPath : option string
}.

Section Monad.
Context {host : Host}.

(** A computation runs from a state of the world and gives its outcome,
    the state it leaves and the events it produced. *)
Definition M (A : Type) : Type := World -> result A * World * list event.

Definition ret {A : Type} (a : A) : M A := fun w => (Ok a, w, []).

Definition bind {A B : Type} (m : M A) (k : A -> M B) : M B :=
  fun w =>
    match m w with
    | (Ok a, w1, t1) =>
        match k a w1 with
        | (r, w2, t2) => (r, w2, t1 ++ t2)
        end
    | (Rejected e, w1, t1) => (Rejected e, w1, t1)
    end.

(** [await c]. *)
Definition await {X : Type} (c : call X) : M X :=
  fun w =>
    match handle X c w with
    | (r, w1) => (r, w1, [event_of c r])
    end.

(** [console.log(message)]. *)
Definition console_log (message : string) : M unit :=
  fun w => (Ok tt, w, [EvLog message]).

Definition outcome {A : Type} (x : result A * World * list event) : result A :=
  fst (fst x).
Definition world_after {A : Type} (x : result A * World * list event) : World :=
  snd (fst x).
Definition trace {A : Type} (x : result A * World * list event) : list event :=
  snd x.

End Monad.

Notation "x <- m ;; k" := (bind m (fun x => k))
  (at level 61, m at next level, right associativity).
Notation "m ;; k" := (bind m (fun _ => k))
  (at level 61, right associativity).

(* ================================================================== *)
(** ** lib/make-html-header.js *)

Module HeaderGenerator.
Section WithSettings.
Context {settings : Settings} {host : Host}.

Definition IOSAppIconDefs : list Def.t :=
  filter (fun d => Def.target d =? "ios") AppIconDefs.

Definition IOSSplashscreenDefs : list Splash.t :=
  filter (fun d => Splash.target d =? "ios") SplashscreenDefs.

(** What [getPrinter] computes once and its closure [print] keeps. *)
Record Printer : Type := { indent : string; trim : bool }.

Definition getPrinter (opts : BuildOptions) : Printer :=
  {| indent := JS.padEnd ""
                 (match indentSize opts with
                  | Some n => Z.to_nat n
                  | None => 4%nat
                  end) " "%char;
     trim := match indentSize opts with
             | Some n => (n =? 0)%Z
             | None => false
             end |}.

(** One call [print(...arguments)], as a function on [result]. *)
Definition print (p : Printer) (arguments : list string) (result : string)
  : string :=
  match arguments with
  | [] => result +:+ JS.nl
  | _ =>
      fold_left
        (fun result line =>
           let result := result +:+ indent p in
           let line := if trim p then JS.trim line else line in
           let result := result +:+ line in
           result +:+ JS.nl)
        arguments result
  end.

Definition getIconDefs (opts : BuildOptions) : list Def.t := IOSAppIconDefs.

Definition getSplashscreenDefs (opts : BuildOptions) : list Splash.t :=
  IOSSplashscreenDefs.

Definition getWebAppCapable (pwa : PWA) : string :=
  if JS.loose_eq_str (display pwa) "fullscreen" then "yes" else "no".

Definition getStatusBarStyle (pwa : PWA) : JS.value :=
  let display := display pwa in
  let statusBarStyle := statusBarStyle (ios pwa) in
  if JS.strict_eq_str statusBarStyle "default"
     || JS.strict_eq_str statusBarStyle "black"
     || JS.strict_eq_str statusBarStyle "black-translucent"
  then statusBarStyle
  else if JS.loose_eq_str display "fullscreen"
       then JS.Str "black-translucent"
       else JS.Str "default".

(** The lines of [make], one definition per template. *)
Definition themeColorTag (pwa : PWA) : string :=
  JS.q "<meta name='theme-color' content='"
    +:+ JS.to_string (background_color pwa) +:+ JS.q "' />".

Definition titleTag (pwa : PWA) : string :=
  "<title>" +:+ JS.to_string (name pwa) +:+ "</title>".

Definition iconLink (d : Def.t) : string :=
  let w := JS.string_of_N (Def.w d) in
  let h := JS.string_of_N (Def.h d) in
  JS.q "<link rel='apple-touch-icon' sizes='" +:+ w +:+ "x" +:+ h
    +:+ JS.q "' href='pwa/appicon/" +:+ w +:+ "x" +:+ h +:+ JS.q ".png' />".

Definition splashscreenLink (d : Splash.t) : list string :=
  let w := JS.string_of_N (Splash.w d) in
  let h := JS.string_of_N (Splash.h d) in
  let dw := JS.string_of_N (Splash.dw d) in
  let dh := JS.string_of_N (Splash.dh d) in
  let dd := JS.string_of_N (Splash.dd d) in
  [ JS.q "<link rel='apple-touch-startup-image'";
    JS.q "    href='pwa/splashscreen/" +:+ w +:+ "x" +:+ h +:+ JS.q ".png'";
    JS.q "    media='(device-width: " +:+ dw +:+ "px) and (device-height: "
      +:+ dh +:+ "px) and (-webkit-device-pixel-ratio: " +:+ dd
      +:+ JS.q ")' />" ].

Definition titleMeta (pwa : PWA) : string :=
  JS.q "<meta name='apple-mobile-web-app-title' content='"
    +:+ JS.to_string (short_name pwa) +:+ JS.q "' />".

Definition capableMeta (pwa : PWA) : string :=
  JS.q "<meta name='apple-mobile-web-app-capable' content='"
    +:+ getWebAppCapable pwa +:+ JS.q "' />".

Definition statusBarMeta (pwa : PWA) : string :=
  JS.q "<meta name='apple-mobile-web-app-status-bar-style' content='"
    +:+ JS.to_string (getStatusBarStyle pwa) +:+ JS.q "' />".

Definition bannerStylesheet : string :=
  JS.q "<link rel='stylesheet' href='" +:+ InstallBannerCSSURL +:+ JS.q "' />".

Definition bannerScript : string :=
  JS.q "<script src='" +:+ InstallBannerJSURL +:+ JS.q "'></script>".

(** The calls of [print] that [make] performs once the manifest is
    loaded, in order; each element is the argument list of one call. *)
Definition calls (opts : BuildOptions) (pwa : PWA) : list (list string) :=
  [ [ JS.q "<meta charset='utf-8' />" ];
    [ JS.q "<meta name='viewport' content='width=device-width, initial-scale=1, shrink-to-fit=no' />" ];
    [ themeColorTag pwa ];
    [];
    [ titleTag pwa ];
    [];
    [ JS.q "<link rel='manifest' href='manifest.webmanifest' />" ];
    [] ]
  ++ map (fun d => [ iconLink d ]) (getIconDefs opts)
  ++ [ [] ]
  ++ map splashscreenLink (getSplashscreenDefs opts)
  ++ [ [];
       [ titleMeta pwa ];
       [ capableMeta pwa ];
       [ statusBarMeta pwa ] ]
  ++ (if JS.truthy (showInstallBanner (ios pwa))
      then [ []; [ bannerStylesheet ]; [ bannerScript ] ]
      else []).

(** [make] after [loadManifest]: the printer is created, the calls are
    performed from the empty result and [print.result()] is returned. *)
Definition html (opts : BuildOptions) (pwa : PWA) : string :=
  let p := getPrinter opts in
  fold_left (fun result arguments => print p arguments result)
            (calls opts pwa) "".

Definition make (opts : BuildOptions) (source : string) : M string :=
  manifest <- await (loadManifest opts source) ;;
  ret (html opts (pwa manifest)).

End WithSettings.
End HeaderGenerator.

(* ================================================================== *)
(** ** The image build step *)

Module AssetGenerator.
Section WithHost.
Context {settings : Settings} {path : PathLib} {host : Host}
        {scope : ModuleScope}.

Definition SourceImagePath : string := "_pwa".
Definition TargetImagePath : string := "pwa".

Definition BaseAppIconName : string := "appicon".
Definition DefaultBaseAppIconPath : string :=
  Path_join (Path_dirname dirname__) "assets/appicon.png".
Definition BaseStdSplashscreenName : string := "splashscreen".
Definition BaseIOSSplashscreenName : string := "ios/splashscreen".

(** ToBoolean of a path that is a string, [null] or [undefined]. *)
Definition truthy_path (p : option string) : bool :=
  match p with
  | Some s => negb (s =? "")
  | None => false
  end.

(** The loop over [exts], then the default path.  [basePath] is a
    parameter of the source function that its body never reads. *)
Fixpoint findFileMatch (basePath path : string) (exts : list string)
         (defaultPath : option string) : M (option string) :=
  match exts with
  | ext :: exts' =>
      let filePath := path +:+ "." +:+ ext in
      found <- await (exists_ filePath) ;;
      if found then ret (Some filePath)
      else findFileMatch basePath path exts' defaultPath
  | [] =>
      match defaultPath with
      | Some d =>
          if truthy_path defaultPath
          then (found <- await (exists_ d) ;;
                if found then ret defaultPath else ret None)
          else ret None
      | None => ret None
      end
  end.

(** [width] x [height], as both templates of [scaleImage] and the image
    path of [buildImages] print it. *)
Definition size (width height : N) : string :=
  JS.string_of_N width +:+ "x" +:+ JS.string_of_N height.

(** The argument list of [convert]; [bgColor] defaults to ['black'] when
    it is [undefined]. *)
Definition scaleArgs (source : option string) (target : string)
           (width height : N) (bgColor : JS.value) : list JS.value :=
  let bgColor :=
    match bgColor with
    | JS.Undefined => JS.Str "black"
    | _ => bgColor
    end in
  [ JS.of_path source;
    JS.Str "-resize";      JS.Str (size width height +:+ "^");
    JS.Str "-background";  bgColor;
    JS.Str "-compose";     JS.Str "Copy";
    JS.Str "-gravity";     JS.Str "center";
    JS.Str "-extent";      JS.Str (size width height);
    JS.Str target ].

Definition scaleImage (source : option string) (target : string)
           (width height : N) (bgColor : JS.value) : M unit :=
  await (exec "convert" (scaleArgs source target width height bgColor)).

(** [`${target}/${w}x${h}`]. *)
Definition imagePathOf (d : Def.t) : string :=
  Def.target d +:+ "/" +:+ size (Def.w d) (Def.h d).

(** The body of the loop of [buildImages], for one definition. *)
Definition buildImage (sourcePath : string) (baseImagePath : option string)
           (d : Def.t) (exts : list string) (targetPath : string)
           (bgColor : JS.value) : M unit :=
  let imagePath := imagePathOf d in
  let targetImagePath := Path_join targetPath imagePath in
  await (ensureDir (Path_dirname targetImagePath)) ;;
  existingImagePath <- findFileMatch sourcePath imagePath exts None ;;
  if truthy_path existingImagePath
  then
    match existingImagePath with
    | Some existing =>
        console_log (JS.tab +:+ "Copying " +:+ existing +:+ " -> "
                       +:+ targetImagePath) ;;
        await (cp existing targetImagePath)
    | None => ret tt
    end
  else
    console_log (JS.tab +:+ "Scaling "
                   +:+ JS.to_string (JS.of_path baseImagePath) +:+ " -> "
                   +:+ targetImagePath) ;;
    scaleImage baseImagePath targetImagePath (Def.w d) (Def.h d) bgColor.

Fixpoint buildImages (sourcePath : string) (baseImagePath : option string)
         (imageDefs : list Def.t) (exts : list string) (targetPath : string)
         (bgColor : JS.value) : M unit :=
  match imageDefs with
  | [] => ret tt
  | d :: rest =>
      buildImage sourcePath baseImagePath d exts targetPath bgColor ;;
      buildImages sourcePath baseImagePath rest exts targetPath bgColor
  end.

Definition make (opts : BuildOptions) (source target : string) : M unit :=
  manifest <- await (loadManifest opts source) ;;
  let background_color := background_color (pwa manifest) in
  let sourcePath := Path_join source SourceImagePath in
  let targetPath := Path_join target TargetImagePath in
  await (rmrf targetPath) ;;
  baseAppIconPath <-
    findFileMatch sourcePath BaseAppIconName ["png"; "svg"]
                  (Some DefaultBaseAppIconPath) ;;
  console_log "Building app icons..." ;;
  buildImages sourcePath baseAppIconPath AppIconDefs ["png"; "svg"]
              targetPath background_color ;;
  baseStdSplashscreenPath <-
    findFileMatch sourcePath BaseStdSplashscreenName ["png"; "svg"]
                  DefaultStdSplashscreenPath ;;
  console_log "Building standard splashscreens..." ;;
  buildImages sourcePath baseStdSplashscreenPath
              (map Splash.image
                   (filter (fun d => Splash.target d =? "std") SplashscreenDefs))
              ["png"; "svg"] targetPath background_color ;;
  baseIosSplashscreenPath <-
    findFileMatch sourcePath BaseIOSSplashscreenName ["png"]
                  baseStdSplashscreenPath ;;
  console_log "Building iOS splashscreens..." ;;
  buildImages sourcePath baseIosSplashscreenPath
              (map Splash.image
                   (filter (fun d => Splash.target d =? "ios") SplashscreenDefs))
              ["png"] targetPath background_color.

End WithHost.
End AssetGenerator.

(* ================================================================== *)
(** ** A concrete host, for running the generators on examples *)

(** Node's [path.join] and [path.dirname] on POSIX, after the algorithm of
    Node's [lib/path.js]. *)
Module Posix.

Definition slash : ascii := "/"%char.

(** The segments between slashes. *)
Fixpoint split (s : string) (cur : string) : list string :=
  match s with
  | EmptyString => [cur]
  | String c s' =>
      if Ascii.eqb c slash then cur :: split s' ""
      else split s' (cur +:+ String c EmptyString)
  end.

(** [normalizeString]: empty and [.] segments are dropped, [..] removes
    the segment before it, or stays when the path may go above its
    start.  [acc] holds the kept segments, last first. *)
Fixpoint resolve (segs : list string) (allowAboveRoot : bool)
         (acc : list string) : list string :=
  match segs with
  | [] => rev acc
  | seg :: segs' =>
      if (seg =? "") || (seg =? ".") then resolve segs' allowAboveRoot acc
      else if seg =? ".." then
        match acc with
        | last :: acc' =>
            if last =? ".." then resolve segs' allowAboveRoot (seg :: acc)
            else resolve segs' allowAboveRoot acc'
        | [] =>
            if allowAboveRoot then resolve segs' allowAboveRoot [seg]
            else resolve segs' allowAboveRoot []
        end
      else resolve segs' allowAboveRoot (seg :: acc)
  end.

Definition ends_with_slash (s : string) : bool :=
  match rev (list_ascii_of_string s) with
  | c :: _ => Ascii.eqb c slash
  | [] => false
  end.

Definition normalize (p : string) : string :=
  match p with
  | EmptyString => "."
  | String c0 _ =>
      let isAbsolute := Ascii.eqb c0 slash in
      let trailingSeparator := ends_with_slash p in
      let body := String.concat "/" (resolve (split p "") (negb isAbsolute) []) in
      if body =? "" then
        if isAbsolute then "/" else if trailingSeparator then "./" else "."
      else
        let body := if trailingSeparator then body +:+ "/" else body in
        if isAbsolute then "/" +:+ body else body
  end.

Definition join (a b : string) : string :=
  match (a =? ""), (b =? "") with
  | true, true => "."
  | true, false => normalize b
  | false, true => normalize a
  | false, false => normalize (a +:+ "/" +:+ b)
  end.

(** The backward scan of [dirname] over the characters after the first:
    trailing slashes are skipped, then the scan stops at the next slash
    and gives what is before it (reversed). *)
Fixpoint scan (rev_tail : list ascii) (matchedSlash : bool)
  : option (list ascii) :=
  match rev_tail with
  | [] => None
  | c :: r =>
      if Ascii.eqb c slash
      then if matchedSlash then scan r true else Some r
      else scan r false
  end.

Definition dirname (p : string) : string :=
  match p with
  | EmptyString => "."
  | String c0 tail =>
      let hasRoot := Ascii.eqb c0 slash in
      match scan (rev (list_ascii_of_string tail)) true with
      | None => if hasRoot then "/" else "."
      | Some [] => if hasRoot then "//" else String c0 EmptyString
      | Some r => String c0 (string_of_list_ascii (rev r))
      end
  end.

Definition lib : PathLib := {| Path_join := join; Path_dirname := dirname |}.

End Posix.

(** Modelled from the spec: the manifest and file-system collaborators
    ([./manifest], [./support]) and the process runner, which are not among
    the sources.  The world is the list of the paths that exist; the
    manifest is fixed; the primitives are reliable, as the specification
    takes them: [exists] answers membership, [rmrf] removes a path and what
    is under it, [ensureDir] creates the directory, [cp] needs its source and
    creates its destination, and [convert] creates its last argument. *)
Module Sim.

Definition present (files : list string) (p : string) : bool :=
  existsb (String.eqb p) files.

Definition add (p : string) (files : list string) : list string :=
  if present files p then files else files ++ [p].

Definition under (dir p : string) : bool :=
  (p =? dir) || String.prefix (dir +:+ "/") p.

Definition last_arg (args : list JS.value) : JS.value :=
  last args JS.Undefined.

Definition answer (m : Manifest) (X : Type) (c : call X)
  : list string -> result X * list string :=
  match c in call X return list string -> result X * list string with
  | loadManifest _ _ => fun files => (Ok m, files)
  | rmrf path => fun files => (Ok tt, filter (fun p => negb (under path p)) files)
  | exists_ path => fun files => (Ok (present files path), files)
  | ensureDir path => fun files => (Ok tt, add path files)
  | cp src dst =>
      fun files =>
        if present files src then (Ok tt, add dst files)
        else (Rejected ("ENOENT: " +:+ src), files)
  | exec cmd args =>
      fun files =>
        match last_arg args with
        | JS.Str target => (Ok tt, add target files)
        | _ => (Rejected "convert: no output file", files)
        end
  end.

Definition host (m : Manifest) : Host :=
  {| World := list string; handle := answer m |}.

(** The same host, on which the probe of one path is rejected. *)
Definition answer_denying (denied : string) (m : Manifest) (X : Type)
           (c : call X) : list string -> result X * list string :=
  match c in call X return list string -> result X * list string with
  | exists_ path =>
      fun files =>
        if path =? denied then (Rejected ("EACCES: " +:+ path), files)
        else answer m bool (exists_ path) files
  | c' => answer m _ c'
  end.

Definition host_denying (denied : string) (m : Manifest) : Host :=
  {| World := list string; handle := answer_denying denied m |}.

(** The same host on a file system that cannot be written: removal is
    rejected. *)
Definition answer_read_only (m : Manifest) (X : Type) (c : call X)
  : list string -> result X * list string :=
  match c in call X return list string -> result X * list string with
  | rmrf path => fun files => (Rejected ("EROFS: " +:+ path), files)
  | c' => answer m _ c'
  end.

Definition host_read_only (m : Manifest) : Host :=
  {| World := list string; handle := answer_read_only m |}.

End Sim.

(** Example tables, manifest and options. *)
Module Demo.

Definition settings : Settings := {|
  AppIconDefs :=
    [ Def.make "ios" 120 120; Def.make "ios" 180 180; Def.make "std" 192 192 ];
  SplashscreenDefs :=
    [ Splash.make (Def.make "ios" 640 1136) 320 568 2;
      Splash.make (Def.make "std" 1280 720) 1280 720 1 ];
  InstallBannerJSURL := "https://example.org/banner.js";
  InstallBannerCSSURL := "https://example.org/banner.css"
|}.

Definition scope : ModuleScope := {|
  dirname__ := "/opt/build-tools/lib";
  DefaultStdSplashscreenPath := Some "/opt/build-tools/assets/splashscreen.png"
|}.

Definition pwa : PWA := {|
  name := JS.Str "Demo";
  short_name := JS.Str "Demo";
  background_color := JS.Str "#fff";
  display := JS.Str "standalone";
  ios := {| statusBarStyle := JS.Str "black";
            showInstallBanner := JS.Bool false |}
|}.

Definition manifest : Manifest := Build_Manifest pwa.

(** A full-screen application that asks for the install banner and gives
    no usable status bar style. *)
Definition pwa_banner : PWA := {|
  name := JS.Str "Demo";
  short_name := JS.Str "Demo";
  background_color := JS.Str "#fff";
  display := JS.Str "fullscreen";
  ios := {| statusBarStyle := JS.Undefined;
            showInstallBanner := JS.Bool true |}
|}.

Definition opts : BuildOptions := {| indentSize := None |}.
Definition opts2 : BuildOptions := {| indentSize := Some 2%Z |}.

(** The bundled default images exist, and a pre-scaled icon lies in the
    source tree of the site. *)
Definition files : list string :=
  [ "/opt/build-tools/assets/appicon.png";
    "/opt/build-tools/assets/splashscreen.png";
    "site/_pwa/ios/120x120.png" ].

(** A manifest that gives no name and no colour. *)
Definition pwa_nameless : PWA := {|
  name := JS.Undefined;
  short_name := JS.Null;
  background_color := JS.Undefined;
  display := JS.Bool true;
  ios := {| statusBarStyle := JS.Str "white";
            showInstallBanner := JS.Num 0 |}
|}.

Definition opts0 : BuildOptions := {| indentSize := Some 0%Z |}.
Definition opts_negative : BuildOptions := {| indentSize := Some (-3)%Z |}.


(** A site that brings its own base icon, in both formats, and nothing
    else. *)
Definition files_own_icon : list string := [ "appicon.svg"; "appicon.png" ].

(** A manifest that does not ask for the install banner and whose name is
    the text of the two banner tags. *)
Definition pwa_injected : PWA := {|
  name := JS.Str (JS.q "<link rel='stylesheet' href='https://example.org/banner.css' /><script src='https://example.org/banner.js'></script>");
  short_name := JS.Str "Demo";
  background_color := JS.Str "#fff";
  display := JS.Str "standalone";
  ios := {| statusBarStyle := JS.Str "black";
            showInstallBanner := JS.Bool false |}
|}.

(** A manifest whose name runs over three lines, the second one of three
    spaces. *)
Definition pwa_multiline : PWA := {|
  name := JS.Str ("a" +:+ JS.nl +:+ "   " +:+ JS.nl +:+ "b");
  short_name := JS.Str "Demo";
  background_color := JS.Str "#fff";
  display := JS.Str "standalone";
  ios := {| statusBarStyle := JS.Str "black";
            showInstallBanner := JS.Bool false |}
|}.

End Demo.

(* ================================================================== *)
(** ** Vocabulary of the properties *)

(** [t] occurs in [s]. *)
Definition occurs_in (t s : string) : Prop :=
  exists before after, s = before +:+ t +:+ after.

Fixpoint flatten (l : list string) : string :=
  match l with
  | [] => ""
  | s :: l' => s +:+ flatten l'
  end.

(** The lines of a text: the pieces between line feeds. *)
Fixpoint lines (s : string) : list string :=
  match s with
  | EmptyString => [""]
  | String c s' =>
      if Ascii.eqb c "010"%char then "" :: lines s'
      else match lines s' with
           | l :: ls => String c l :: ls
           | [] => [String c EmptyString]
           end
  end.

Fixpoint has_line_feed (s : string) : bool :=
  match s with
  | EmptyString => false
  | String c s' => Ascii.eqb c "010"%char || has_line_feed s'
  end.

Fixpoint leading_spaces (s : string) : nat :=
  match s with
  | String c s' => if Ascii.eqb c " "%char then S (leading_spaces s') else O
  | EmptyString => O
  end.

(** Every line of [text] that is not blank begins with exactly [n] spaces. *)
Definition indented_by (n : nat) (text : string) : Prop :=
  forall line,
    In line (lines text) -> JS.trimStart line <> "" -> leading_spaces line = n.

Section HeaderVocabulary.
Context {settings : Settings}.
Import HeaderGenerator.

(** What one call of [print] appends to the result. *)
Definition render_call (p : Printer) (arguments : list string) : string :=
  match arguments with
  | [] => JS.nl
  | _ =>
      flatten
        (map (fun line =>
                indent p +:+ (if trim p then JS.trim line else line) +:+ JS.nl)
             arguments)
  end.

(** The lines that one call of [print] adds to the text when the indent
    is [indent] and nothing is trimmed. *)
Definition lines_of_call (indent : string) (arguments : list string)
  : list string :=
  match arguments with
  | [] => [""]
  | _ => map (fun line => indent +:+ line) arguments
  end.

(** Every line text that [make] passes to [print], in order. *)
Definition printed (opts : BuildOptions) (pwa : PWA) : list string :=
  concat (calls opts pwa).

(** The line texts that do not come from a definition table or from the
    install banner. *)
Definition fixed_lines (pwa : PWA) : list string :=
  [ JS.q "<meta charset='utf-8' />";
    JS.q "<meta name='viewport' content='width=device-width, initial-scale=1, shrink-to-fit=no' />";
    themeColorTag pwa;
    titleTag pwa;
    JS.q "<link rel='manifest' href='manifest.webmanifest' />";
    titleMeta pwa;
    capableMeta pwa;
    statusBarMeta pwa ].

(** The second and third line of a startup-image link. *)
Definition is_continuation (line : string) : bool :=
  String.prefix (JS.q "    href='pwa/splashscreen") line
  || String.prefix (JS.q "    media='(device-width:") line.

End HeaderVocabulary.

Section AssetVocabulary.
Context {path : PathLib} {host : Host}.

(** Where the image of a definition goes, under the target image path. *)
Definition written_path (targetPath : string) (d : Def.t) : string :=
  Path_join targetPath (AssetGenerator.imagePathOf d).

(** The calls that change the target tree once it has been removed. *)
Definition builds (e : event) : bool :=
  match e with
  | EvEnsureDir _ | EvCp _ _ | EvExec _ _ => true
  | _ => false
  end.

(** The files a run writes: the destination of each copy and the output
    file (last argument) of each [convert]. *)
Definition written_by (e : event) : list string :=
  match e with
  | EvCp _ dst => [dst]
  | EvExec _ args =>
      match last args JS.Undefined with
      | JS.Str target => [target]
      | _ => []
      end
  | _ => []
  end.

Definition writes (t : list event) : list string := flat_map written_by t.

(** [l] is an initial part of [full]. *)
Definition initial_part (l full : list string) : Prop :=
  exists rest, full = l ++ rest.

(** In the state [w] a probe answers [present] and changes nothing. *)
Definition probes_read (present : string -> bool) (w : World) : Prop :=
  forall p, handle bool (exists_ p) w = (Ok (present p), w).

End AssetVocabulary.

(** White space at either end of a text. *)
Definition starts_with_space (s : string) : bool :=
  match s with
  | String c _ => JS.is_space c
  | EmptyString => false
  end.

Definition ends_with_space (s : string) : bool :=
  starts_with_space (JS.reverse s).

Fixpoint all_spaces (s : string) : bool :=
  match s with
  | String c s' => Ascii.eqb c " "%char && all_spaces s'
  | EmptyString => true
  end.

(** The paths a trace probes, in order. *)
Definition probed (t : list event) : list string :=
  flat_map (fun e => match e with EvExists p _ => [p] | _ => [] end) t.

(** The paths resolution may probe, in the order it tries them. *)
Definition candidates (name : string) (exts : list string)
           (defaultPath : option string) : list string :=
  map (fun ext => name +:+ "." +:+ ext) exts
  ++ match defaultPath with
     | Some d => if d =? "" then [] else [d]
     | None => []
     end.

Section AssetStages.
Context {settings : Settings} {path : PathLib} {host : Host}
        {scope : ModuleScope}.
Import AssetGenerator.

(** What [make] does once the manifest is loaded and the target image
    directory removed: the three stages, icons, standard and iOS
    splashscreens. *)
Definition build_stages (source target : string) (background_color : JS.value)
  : M unit :=
  let sourcePath := Path_join source SourceImagePath in
  let targetPath := Path_join target TargetImagePath in
  baseAppIconPath <-
    findFileMatch sourcePath BaseAppIconName ["png"; "svg"]
                  (Some DefaultBaseAppIconPath) ;;
  console_log "Building app icons..." ;;
  buildImages sourcePath baseAppIconPath AppIconDefs ["png"; "svg"]
              targetPath background_color ;;
  baseStdSplashscreenPath <-
    findFileMatch sourcePath BaseStdSplashscreenName ["png"; "svg"]
                  DefaultStdSplashscreenPath ;;
  console_log "Building standard splashscreens..." ;;
  buildImages sourcePath baseStdSplashscreenPath
              (map Splash.image
                   (filter (fun d => Splash.target d =? "std") SplashscreenDefs))
              ["png"; "svg"] targetPath background_color ;;
  baseIosSplashscreenPath <-
    findFileMatch sourcePath BaseIOSSplashscreenName ["png"]
                  baseStdSplashscreenPath ;;
  console_log "Building iOS splashscreens..." ;;
  buildImages sourcePath baseIosSplashscreenPath
              (map Splash.image
                   (filter (fun d => Splash.target d =? "ios") SplashscreenDefs))
              ["png"] targetPath background_color.

(** The definitions the image step builds from. *)
Definition built_defs : list Def.t :=
  AppIconDefs
  ++ map Splash.image
         (filter (fun d => Splash.target d =? "std") SplashscreenDefs)
  ++ map Splash.image
         (filter (fun d => Splash.target d =? "ios") SplashscreenDefs).

End AssetStages.

(** The calls that remove or load. *)
Definition removes_or_loads (e : event) : bool :=
  match e with
  | EvRmrf _ | EvLoadManifest _ _ => true
  | _ => false
  end.

(** [t] occurs in [s], decided. *)
Fixpoint occursb (t s : string) : bool :=
  String.prefix t s
  || match s with
     | String _ s' => occursb t s'
     | EmptyString => false
     end.

(** [t] does not occur in [s +:+ rest], anywhere from a position of [s],
    whatever follows, as soon as it does not occur in what follows. *)
Definition safe (t s : string) : Prop :=
  forall rest, occursb t rest = false -> occursb t (s +:+ rest) = false.

(** The text holds the character that opens a tag. *)
Fixpoint has_lt (s : string) : bool :=
  match s with
  | EmptyString => false
  | String c s' => Ascii.eqb c "<"%char || has_lt s'
  end.

Section LineVocabulary.
Import HeaderGenerator.

(** What [print] puts on the line of one of its arguments, before the line
    feed: the indent and the text, trimmed when the printer trims. *)
Definition emit (p : Printer) (line : string) : string :=
  indent p +:+ (if trim p then JS.trim line else line).

(** The lines that one call of [print] adds to the text, when no argument
    holds a line feed. *)
Definition lines_of_print (p : Printer) (arguments : list string)
  : list string :=
  match arguments with
  | [] => [""]
  | _ => map (emit p) arguments
  end.

(** A line of the header that is an apple-touch-icon link, behind any
    indent. *)
Definition is_icon_line (line : string) : bool :=
  String.prefix (JS.q "<link rel='apple-touch-icon'") (JS.trimStart line).

(** A line of the header that is the [href] line of a startup-image link,
    behind any indent. *)
Definition is_startup_href_line (line : string) : bool :=
  String.prefix (JS.q "href='pwa/splashscreen") (JS.trimStart line).

(** A line that holds nothing but white space. *)
Definition is_blank (line : string) : bool := JS.trimStart line =? "".

(** Every blank line of [text] is empty: it holds no white space. *)
Definition blank_lines_empty (text : string) : Prop :=
  forall line, In line (lines text) -> is_blank line = true -> line = "".

End LineVocabulary.

(* ================================================================== *)
(** ** Strings *)

Lemma append_assoc (a b c : string) : (a +:+ b) +:+ c = a +:+ b +:+ c.
Proof.
  induction a as [|x a IH]; simpl; [reflexivity | now rewrite IH].
Qed.

Lemma append_nil_r (a : string) : a +:+ "" = a.
Proof.
  induction a as [|x a IH]; simpl; [reflexivity | now rewrite IH].
Qed.

Lemma length_append (a b : string) :
  String.length (a +:+ b) = (String.length a + String.length b)%nat.
Proof.
  induction a as [|x a IH]; simpl; [reflexivity | now rewrite IH].
Qed.

Lemma occurs_in_append_l (t s u : string) : occurs_in t s -> occurs_in t (u +:+ s).
Proof.
  intros (a & b & ->). exists (u +:+ a), b. now rewrite append_assoc.
Qed.

Lemma occurs_in_append_r (t s u : string) : occurs_in t s -> occurs_in t (s +:+ u).
Proof.
  intros (a & b & ->). exists a, (b +:+ u). now rewrite !append_assoc.
Qed.

Lemma occurs_in_flatten (t s : string) (l : list string) :
  In s l -> occurs_in t s -> occurs_in t (flatten l).
Proof.
  induction l as [|x l IH]; simpl; [tauto|].
  intros [->|Hin] Ht.
  - now apply occurs_in_append_r.
  - apply occurs_in_append_l. now apply IH.
Qed.

Lemma has_line_feed_append (a b : string) :
  has_line_feed (a +:+ b) = has_line_feed a || has_line_feed b.
Proof.
  induction a as [|c a IH]; simpl; [reflexivity|].
  now rewrite IH, orb_assoc.
Qed.

(** A text without line feed, followed by one, is a line of its own. *)
Lemma lines_first (a b : string) :
  has_line_feed a = false -> lines (a +:+ JS.nl +:+ b) = a :: lines b.
Proof.
  induction a as [|c a IH]; intros H.
  - reflexivity.
  - simpl in H. apply orb_false_iff in H as [Hc Ha].
    cbn [String.append lines]. rewrite Hc, (IH Ha). reflexivity.
Qed.

(* ================================================================== *)
(** ** The printer *)

Section PrinterFacts.
Context {settings : Settings}.
Import HeaderGenerator.

Lemma print_render (p : Printer) (arguments : list string) (result : string) :
  print p arguments result = result +:+ render_call p arguments.
Proof.
  destruct arguments as [|a l]; [reflexivity|].
  unfold print, render_call.
  generalize (a :: l). clear a l. intros l. revert result.
  induction l as [|x l IH]; intros result; simpl.
  - now rewrite append_nil_r.
  - rewrite IH. now rewrite !append_assoc.
Qed.

Lemma run_render (p : Printer) (cs : list (list string)) (result : string) :
  fold_left (fun result arguments => print p arguments result) cs result
  = result +:+ flatten (map (render_call p) cs).
Proof.
  revert result. induction cs as [|c cs IH]; intros result; simpl.
  - now rewrite append_nil_r.
  - rewrite IH, print_render. now rewrite append_assoc.
Qed.

Lemma html_render (opts : BuildOptions) (pwa : PWA) :
  html opts pwa
  = flatten (map (render_call (getPrinter opts)) (calls opts pwa)).
Proof.
  unfold html. now rewrite run_render.
Qed.

(** The printed line texts, by origin. *)
Lemma printed_cases (opts : BuildOptions) (pwa : PWA) (line : string) :
  In line (printed opts pwa) <->
  In line (fixed_lines pwa)
  \/ (exists d, In d (getIconDefs opts) /\ line = iconLink d)
  \/ (exists d, In d (getSplashscreenDefs opts) /\ In line (splashscreenLink d))
  \/ (JS.truthy (showInstallBanner (ios pwa)) = true
      /\ In line [bannerStylesheet; bannerScript]).
Proof.
  unfold printed, calls.
  rewrite !concat_app, !in_app_iff, <- !flat_map_concat_map, !in_flat_map.
  split.
  - intros [H|[H|[H|[H|[H|H]]]]].
    + left. simpl in H. unfold fixed_lines. simpl. tauto.
    + destruct H as (d & Hd & [<-|[]]). right; left. now exists d.
    + simpl in H. tauto.
    + right; right; left. exact H.
    + left. simpl in H. unfold fixed_lines. simpl. tauto.
    + right; right; right.
      destruct (JS.truthy (showInstallBanner (ios pwa))); simpl in H; [|tauto].
      split; [reflexivity|]. simpl. tauto.
  - intros [H|[H|[H|H]]].
    + unfold fixed_lines in H. simpl in H. simpl. tauto.
    + destruct H as (d & Hd & ->). right; left. exists d. simpl. tauto.
    + right; right; right; left. exact H.
    + destruct H as [Ht H]. rewrite Ht. simpl in H. simpl. tauto.
Qed.

(** A line passed alone to [print] appears in the output behind the
    indent and before a line feed. *)
Lemma printed_alone_occurs (opts : BuildOptions) (pwa : PWA) (line : string) :
  In [line] (calls opts pwa) ->
  let p := getPrinter opts in
  occurs_in (indent p +:+ (if trim p then JS.trim line else line) +:+ JS.nl)
            (html opts pwa).
Proof.
  intros Hin p. rewrite html_render.
  apply occurs_in_flatten with (s := render_call (getPrinter opts) [line]).
  - now apply in_map.
  - exists "", "". simpl. now rewrite !append_nil_r.
Qed.

End PrinterFacts.

Lemma flatten_app (a b : list string) :
  flatten (a ++ b) = flatten a +:+ flatten b.
Proof.
  induction a as [|x a IH]; simpl; [reflexivity|].
  now rewrite IH, append_assoc.
Qed.

Lemma list_ascii_of_append (a b : string) :
  list_ascii_of_string (a +:+ b)
  = list_ascii_of_string a ++ list_ascii_of_string b.
Proof.
  induction a as [|x a IH]; simpl; [reflexivity | now rewrite IH].
Qed.

Lemma string_of_list_ascii_app (a b : list ascii) :
  string_of_list_ascii (a ++ b)
  = string_of_list_ascii a +:+ string_of_list_ascii b.
Proof.
  induction a as [|x a IH]; simpl; [reflexivity | now rewrite IH].
Qed.

Lemma reverse_append (a b : string) :
  JS.reverse (a +:+ b) = JS.reverse b +:+ JS.reverse a.
Proof.
  unfold JS.reverse.
  now rewrite list_ascii_of_append, rev_app_distr, string_of_list_ascii_app.
Qed.

Lemma reverse_involutive (s : string) : JS.reverse (JS.reverse s) = s.
Proof.
  unfold JS.reverse.
  now rewrite list_ascii_of_string_of_list_ascii, rev_involutive,
    string_of_list_ascii_of_string.
Qed.

(** Trimming leaves a text alone when neither end is white space. *)
Lemma trim_id (s : string) :
  JS.trimStart s = s ->
  JS.trimStart (JS.reverse s) = JS.reverse s ->
  JS.trim s = s.
Proof.
  intros H1 H2. unfold JS.trim. now rewrite H1, H2, reverse_involutive.
Qed.

Lemma trim_tag (a v b : string) :
  JS.trimStart a = a -> a <> "" ->
  JS.trimStart (JS.reverse b) = JS.reverse b -> b <> "" ->
  JS.trim (a +:+ v +:+ b) = a +:+ v +:+ b.
Proof.
  intros Ha Hna Hb Hnb. apply trim_id.
  - destruct a as [|c a]; [congruence|].
    simpl in *. destruct (JS.is_space c); [|reflexivity].
    exfalso.
    assert (Hlen : String.length (JS.trimStart a) = S (String.length a))
      by now rewrite Ha.
    assert (Hle : forall s, String.length (JS.trimStart s) <= String.length s).
    { clear. induction s as [|x s IH]; simpl; [lia|].
      destruct (JS.is_space x); simpl; lia. }
    specialize (Hle a). lia.
  - rewrite !reverse_append.
    assert (Hrb : JS.reverse b <> "").
    { intros E. apply Hnb. rewrite <- (reverse_involutive b), E. reflexivity. }
    destruct (JS.reverse b) as [|c r]; [congruence|].
    simpl in *. destruct (JS.is_space c); [|reflexivity].
    exfalso.
    assert (Hlen : String.length (JS.trimStart r) = S (String.length r))
      by now rewrite Hb.
    assert (Hle : forall s, String.length (JS.trimStart s) <= String.length s).
    { clear. induction s as [|x s IH]; simpl; [lia|].
      destruct (JS.is_space x); simpl; lia. }
    specialize (Hle r). lia.
Qed.

(* ================================================================== *)
(** ** The header generator *)

Section HeaderFacts.
Context {settings : Settings}.
Import HeaderGenerator.

Lemma statusBarMeta_printed (opts : BuildOptions) (pwa : PWA) :
  In [statusBarMeta pwa] (calls opts pwa).
Proof.
  unfold calls. rewrite !in_app_iff.
  right; right; right; right; left. simpl. tauto.
Qed.

Lemma statusBarMeta_trim (pwa : PWA) :
  JS.trim (statusBarMeta pwa) = statusBarMeta pwa.
Proof.
  unfold statusBarMeta. apply trim_tag; try reflexivity; discriminate.
Qed.

(** C2. The value of the apple-mobile-web-app-status-bar-style meta tag
    is [pwa.ios.statusBarStyle] itself when that is one of ['default'],
    ['black'], ['black-translucent']; for any other value, a missing one
    included, it is ['black-translucent'] when [pwa.display ==
    'fullscreen'] and ['default'] otherwise; and the header, whatever the
    build options, holds the meta tag with that value on a line of its
    own. *)
Theorem C2_status_bar_style (opts : BuildOptions) (pwa : PWA) :
  (statusBarStyle (ios pwa) = JS.Str "default"
   \/ statusBarStyle (ios pwa) = JS.Str "black"
   \/ statusBarStyle (ios pwa) = JS.Str "black-translucent" ->
   getStatusBarStyle pwa = statusBarStyle (ios pwa))
  /\ (~ (statusBarStyle (ios pwa) = JS.Str "default"
         \/ statusBarStyle (ios pwa) = JS.Str "black"
         \/ statusBarStyle (ios pwa) = JS.Str "black-translucent") ->
      getStatusBarStyle pwa
      = JS.Str (if JS.loose_eq_str (display pwa) "fullscreen"
                then "black-translucent" else "default"))
  /\ occurs_in
       (JS.q "<meta name='apple-mobile-web-app-status-bar-style' content='"
          +:+ JS.to_string (getStatusBarStyle pwa) +:+ JS.q "' />" +:+ JS.nl)
       (html opts pwa).
Proof.
  split; [|split].
  - unfold getStatusBarStyle.
    intros [H|[H|H]]; rewrite H; reflexivity.
  - intros Hn. unfold getStatusBarStyle.
    destruct (statusBarStyle (ios pwa)) as [| |b|n|s]; simpl;
      try (destruct (JS.loose_eq_str (display pwa) "fullscreen"); reflexivity).
    destruct (String.eqb_spec s "default") as [->|_]; [tauto|].
    destruct (String.eqb_spec s "black") as [->|_]; [tauto|].
    destruct (String.eqb_spec s "black-translucent") as [->|_]; [tauto|].
    simpl. destruct (JS.loose_eq_str (display pwa) "fullscreen"); reflexivity.
  - pose proof (printed_alone_occurs opts pwa _ (statusBarMeta_printed opts pwa))
      as H.
    cbv zeta in H. rewrite statusBarMeta_trim in H.
    destruct (trim (getPrinter opts));
      destruct H as (a & b & H); exists (a +:+ indent (getPrinter opts)), b;
      rewrite H; unfold statusBarMeta; rewrite !append_assoc; reflexivity.
Qed.

Lemma suffix_append_l (t s u : string) :
  (exists before, s = before +:+ t) -> exists before, u +:+ s = before +:+ t.
Proof.
  intros (b & ->). exists (u +:+ b). now rewrite append_assoc.
Qed.

Lemma render_blank (p : Printer) : render_call p [] = JS.nl.
Proof. reflexivity. Qed.

Lemma render_single (p : Printer) (line : string) :
  render_call p [line]
  = indent p +:+ (if trim p then JS.trim line else line) +:+ JS.nl.
Proof.
  unfold render_call. cbn [map flatten].
  now rewrite append_nil_r.
Qed.

Lemma default_indent : indent (getPrinter {| indentSize := None |}) = "    ".
Proof. reflexivity. Qed.

Lemma default_trim : trim (getPrinter {| indentSize := None |}) = false.
Proof. reflexivity. Qed.

(** The lines that one call with arguments prints with the two-space
    indent, when no line text holds a line feed. *)
Lemma lines_of_arguments (l : list string) (rest : string) :
  (forall text, In text l -> has_line_feed text = false) ->
  lines (flatten (map (fun line => "  " +:+ line +:+ JS.nl) l) +:+ rest)
  = map (fun line => "  " +:+ line) l ++ lines rest.
Proof.
  induction l as [|x l IH]; intros Hl; [reflexivity|].
  cbn [map flatten app].
  replace ((("  " +:+ x +:+ JS.nl)
            +:+ flatten (map (fun line => "  " +:+ line +:+ JS.nl) l)) +:+ rest)
    with (("  " +:+ x) +:+ JS.nl
          +:+ (flatten (map (fun line => "  " +:+ line +:+ JS.nl) l) +:+ rest))
    by (now rewrite !append_assoc).
  rewrite lines_first.
  - rewrite IH by (intros text Ht; apply Hl; now right). reflexivity.
  - cbn. apply Hl. now left.
Qed.

(** The lines of the text that a sequence of calls prints. *)
Lemma lines_of_calls (cs : list (list string)) :
  (forall c text, In c cs -> In text c -> has_line_feed text = false) ->
  lines (flatten (map (fun arguments =>
                         match arguments with
                         | [] => JS.nl
                         | _ => flatten (map (fun line => "  " +:+ line +:+ JS.nl)
                                             arguments)
                         end) cs))
  = flat_map (lines_of_call "  ") cs ++ [""].
Proof.
  induction cs as [|c cs IH]; intros H; [reflexivity|].
  cbn [map flatten flat_map]. rewrite <- app_assoc, <- IH
    by (intros c' text Hc; apply H; now right).
  assert (Hc : forall text, In text c -> has_line_feed text = false)
    by (intros text; apply H; now left).
  destruct c as [|a l]; [reflexivity|].
  now apply lines_of_arguments.
Qed.

(** C6, as amended.  With [indentSize = 2] every line is printed as two
    spaces, the text given to the printer as it is, and a line feed.  The
    text of the second and third line of each apple-touch-startup-image
    link begins with four spaces of its own, so these lines begin with
    six spaces; every other printed line begins with exactly two.  Hence,
    when no printed text holds a line feed, a line of the header is empty
    or begins with exactly two spaces, or with exactly six when it is such
    a continuation line. *)
Theorem C6_indent_two_amended (pwa : PWA) :
  html {| indentSize := Some 2%Z |} pwa
  = flatten (map (fun arguments =>
                    match arguments with
                    | [] => JS.nl
                    | _ => flatten (map (fun line => "  " +:+ line +:+ JS.nl)
                                        arguments)
                    end)
                 (calls {| indentSize := Some 2%Z |} pwa))
  /\ (forall text,
         In text (printed {| indentSize := Some 2%Z |} pwa) ->
         leading_spaces ("  " +:+ text)
         = if is_continuation text then 6%nat else 2%nat)
  /\ ((forall text,
          In text (printed {| indentSize := Some 2%Z |} pwa) ->
          has_line_feed text = false) ->
      forall line,
        In line (lines (html {| indentSize := Some 2%Z |} pwa)) ->
        line = ""
        \/ exists text,
            In text (printed {| indentSize := Some 2%Z |} pwa)
            /\ line = "  " +:+ text
            /\ leading_spaces line
               = if is_continuation text then 6%nat else 2%nat).
Proof.
  assert (Hspaces : forall text,
             In text (printed {| indentSize := Some 2%Z |} pwa) ->
             leading_spaces ("  " +:+ text)
             = if is_continuation text then 6%nat else 2%nat).
  { intros line H. apply printed_cases in H.
    destruct H as [H|[(d & _ & ->)|[(d & _ & H)|[_ H]]]].
    - unfold fixed_lines in H. simpl in H.
      repeat (destruct H as [<-|H]; [reflexivity|]). destruct H.
    - reflexivity.
    - unfold splashscreenLink in H. simpl in H.
      repeat (destruct H as [<-|H]; [reflexivity|]). destruct H.
    - simpl in H.
      repeat (destruct H as [<-|H]; [reflexivity|]). destruct H. }
  split; [|split].
  - exact (html_render {| indentSize := Some 2%Z |} pwa).
  - exact Hspaces.
  - intros Hnl line Hline.
    rewrite (html_render {| indentSize := Some 2%Z |} pwa) in Hline.
    change (map (render_call (getPrinter {| indentSize := Some 2%Z |})))
      with (map (fun arguments =>
                   match arguments with
                   | [] => JS.nl
                   | _ => flatten (map (fun line => "  " +:+ line +:+ JS.nl)
                                       arguments)
                   end)) in Hline.
    rewrite lines_of_calls in Hline.
    + apply in_app_iff in Hline as [Hline|[<-|[]]]; [|now left].
      apply in_flat_map in Hline as (c & Hc & Hline).
      destruct c as [|a l].
      * left. destruct Hline as [<-|[]]. reflexivity.
      * right. unfold lines_of_call in Hline.
        apply in_map_iff in Hline as (text & <- & Htext).
        assert (Hp : In text (printed {| indentSize := Some 2%Z |} pwa)).
        { unfold printed. apply in_concat. eauto. }
        exists text. auto.
    + intros c text Hc Htext. apply Hnl. unfold printed.
      apply in_concat. eauto.
Qed.

End HeaderFacts.

(* ================================================================== *)
(** ** Running computations *)

Section MonadFacts.
Context {host : Host}.

Lemma bind_Ok {A B : Type} (m : M A) (k : A -> M B) (w w1 : World)
      (a : A) (t1 : list event) :
  m w = (Ok a, w1, t1) ->
  bind m k w = (outcome (k a w1), world_after (k a w1), t1 ++ trace (k a w1)).
Proof.
  intros E. unfold bind. rewrite E.
  now destruct (k a w1) as [[r w2] t2].
Qed.

Lemma bind_Rejected {A B : Type} (m : M A) (k : A -> M B) (w w1 : World)
      (e : string) (t1 : list event) :
  m w = (Rejected e, w1, t1) -> bind m k w = (Rejected e, w1, t1).
Proof.
  intros E. unfold bind. now rewrite E.
Qed.

(** A fulfilled sequence: its first part was fulfilled, and so was what
    followed. *)
Lemma bind_fulfilled {A B : Type} (m : M A) (k : A -> M B) (w : World) (b : B) :
  outcome (bind m k w) = Ok b ->
  exists a w1 t1,
    m w = (Ok a, w1, t1)
    /\ outcome (k a w1) = Ok b
    /\ trace (bind m k w) = t1 ++ trace (k a w1).
Proof.
  intros H.
  destruct (m w) as [[[a|e] w1] t1] eqn:E.
  - rewrite (bind_Ok m k w w1 a t1 E) in *.
    exists a, w1, t1. auto.
  - rewrite (bind_Rejected m k w w1 e t1 E) in H. discriminate H.
Qed.

Lemma await_run {X : Type} (c : call X) (w : World) :
  await c w
  = (fst (handle X c w), snd (handle X c w), [event_of c (fst (handle X c w))]).
Proof.
  unfold await. now destruct (handle X c w).
Qed.

Lemma outcome_of {A : Type} (r : result A) (w : World) (t : list event) :
  outcome (r, w, t) = r.
Proof. reflexivity. Qed.

Lemma trace_of {A : Type} (r : result A) (w : World) (t : list event) :
  trace (r, w, t) = t.
Proof. reflexivity. Qed.

Lemma writes_app (t1 t2 : list event) : writes (t1 ++ t2) = writes t1 ++ writes t2.
Proof.
  apply flat_map_app.
Qed.

End MonadFacts.

(** The header generator loads the manifest and returns the text printed
    for it; it makes no other call. *)
Section HeaderRun.
Context {settings : Settings} {host : Host}.

Lemma header_make_run (opts : BuildOptions) (source : string) (w : World) :
  HeaderGenerator.make opts source w
  = match handle Manifest (loadManifest opts source) w with
    | (Ok manifest, w1) =>
        (Ok (HeaderGenerator.html opts (pwa manifest)), w1,
         [EvLoadManifest opts source])
    | (Rejected e, w1) => (Rejected e, w1, [EvLoadManifest opts source])
    end.
Proof.
  unfold HeaderGenerator.make, bind, await, ret.
  now destruct (handle Manifest (loadManifest opts source) w) as [[m|e] w1].
Qed.

End HeaderRun.

(* ================================================================== *)
(** ** File-match resolution *)

Section FindFileMatchFacts.
Context {settings : Settings} {path : PathLib} {host : Host}
        {scope : ModuleScope}.
Import AssetGenerator.

Lemma findFileMatch_cons (basePath name ext : string) (exts : list string)
      (defaultPath : option string) (w : World) :
  findFileMatch basePath name (ext :: exts) defaultPath w
  = match handle bool (exists_ (name +:+ "." +:+ ext)) w with
    | (Ok true, w1) =>
        (Ok (Some (name +:+ "." +:+ ext)), w1,
         [EvExists (name +:+ "." +:+ ext) (Some true)])
    | (Ok false, w1) =>
        let x := findFileMatch basePath name exts defaultPath w1 in
        (outcome x, world_after x,
         EvExists (name +:+ "." +:+ ext) (Some false) :: trace x)
    | (Rejected e, w1) =>
        (Rejected e, w1, [EvExists (name +:+ "." +:+ ext) None])
    end.
Proof.
  cbn [findFileMatch]. unfold bind, await.
  destruct (handle bool (exists_ (name +:+ "." +:+ ext)) w) as [[[|]|e] w1];
    try reflexivity.
  now destruct (findFileMatch basePath name exts defaultPath w1) as [[r w2] t2].
Qed.

Lemma findFileMatch_nil (basePath name : string) (defaultPath : option string)
      (w : World) :
  findFileMatch basePath name [] defaultPath w
  = match defaultPath with
    | Some d =>
        if d =? "" then (Ok None, w, [])
        else match handle bool (exists_ d) w with
             | (Ok true, w1) => (Ok (Some d), w1, [EvExists d (Some true)])
             | (Ok false, w1) => (Ok None, w1, [EvExists d (Some false)])
             | (Rejected e, w1) => (Rejected e, w1, [EvExists d None])
             end
    | None => (Ok None, w, [])
    end.
Proof.
  cbn [findFileMatch]. destruct defaultPath as [d|]; [|reflexivity].
  unfold truthy_path. destruct (d =? ""); [reflexivity|].
  cbn [negb]. unfold bind, await.
  now destruct (handle bool (exists_ d) w) as [[[|]|e] w1].
Qed.

(** The base path has no part in the resolution. *)
Lemma findFileMatch_ignores_basePath (basePath basePath' name : string)
      (exts : list string) (defaultPath : option string) (w : World) :
  findFileMatch basePath name exts defaultPath w
  = findFileMatch basePath' name exts defaultPath w.
Proof.
  revert w. induction exts as [|ext exts IH]; intros w.
  - now rewrite !findFileMatch_nil.
  - rewrite !findFileMatch_cons.
    destruct (handle bool (exists_ (name +:+ "." +:+ ext)) w) as [[[|]|e] w1];
      try reflexivity.
    now rewrite IH.
Qed.

(** Resolution only probes. *)
Lemma findFileMatch_only_probes (basePath name : string) (exts : list string)
      (defaultPath : option string) (w : World) :
  Forall (fun e => exists p a, e = EvExists p a)
         (trace (findFileMatch basePath name exts defaultPath w)).
Proof.
  revert w. induction exts as [|ext exts IH]; intros w.
  - rewrite findFileMatch_nil. destruct defaultPath as [d|]; [|constructor].
    destruct (d =? ""); [constructor|].
    destruct (handle bool (exists_ d) w) as [[[|]|e] w1];
      repeat constructor; eauto.
  - rewrite findFileMatch_cons.
    destruct (handle bool (exists_ (name +:+ "." +:+ ext)) w) as [[[|]|e] w1];
      cbn; repeat constructor; eauto.
Qed.

(** C9. When file-match resolution returns a path, it probed that very
    path during the call and the probe answered true; the path is the name
    with one of the listed extensions, or the default path supplied. *)
Theorem C9_findFileMatch_returns_probed_path
        (basePath name : string) (exts : list string)
        (defaultPath : option string) (w : World) (p : string) :
  outcome (findFileMatch basePath name exts defaultPath w) = Ok (Some p) ->
  In (EvExists p (Some true))
     (trace (findFileMatch basePath name exts defaultPath w))
  /\ ((exists ext, In ext exts /\ p = name +:+ "." +:+ ext)
      \/ defaultPath = Some p).
Proof.
  revert w. induction exts as [|ext exts IH]; intros w.
  - rewrite findFileMatch_nil. destruct defaultPath as [d|]; [|discriminate].
    destruct (d =? ""); [discriminate|].
    destruct (handle bool (exists_ d) w) as [[[|]|e] w1]; cbn;
      try discriminate.
    intros [= ->]. auto.
  - rewrite findFileMatch_cons.
    destruct (handle bool (exists_ (name +:+ "." +:+ ext)) w) as [[[|]|e] w1];
      cbn; try discriminate.
    + intros [= <-]. split; [auto|]. left. exists ext. cbn. auto.
    + intros H. destruct (IH w1 H) as [Hin Hp]. split; [auto|].
      destruct Hp as [(x & Hx & ->)|Hp]; [|auto].
      left. exists x. cbn. auto.
Qed.

(** In a world where probes only read, resolution leaves the world as it
    was. *)
Lemma findFileMatch_world (present : string -> bool) (w : World)
      (basePath name : string) (exts : list string)
      (defaultPath : option string) :
  probes_read present w ->
  world_after (findFileMatch basePath name exts defaultPath w) = w.
Proof.
  intros Hw. induction exts as [|x exts IH].
  - rewrite findFileMatch_nil. destruct defaultPath as [d|]; [|reflexivity].
    destruct (d =? ""); [reflexivity|]. rewrite (Hw d).
    now destruct (present d).
  - rewrite findFileMatch_cons, (Hw (name +:+ "." +:+ x)).
    now destruct (present (name +:+ "." +:+ x)).
Qed.

(** There, the extensions for which nothing exists are passed over. *)
Lemma findFileMatch_skip (present : string -> bool) (w : World)
      (basePath name : string) (pre rest : list string)
      (defaultPath : option string) :
  probes_read present w ->
  (forall e, In e pre -> present (name +:+ "." +:+ e) = false) ->
  findFileMatch basePath name (pre ++ rest) defaultPath w
  = (outcome (findFileMatch basePath name rest defaultPath w), w,
     map (fun e => EvExists (name +:+ "." +:+ e) (Some false)) pre
     ++ trace (findFileMatch basePath name rest defaultPath w)).
Proof.
  intros Hw. induction pre as [|e pre IH]; intros Hpre.
  - cbn [app map].
    pose proof (findFileMatch_world present w basePath name rest defaultPath Hw)
      as E.
    destruct (findFileMatch basePath name rest defaultPath w) as [[r w1] t].
    cbn in *. now subst.
  - cbn [app]. rewrite findFileMatch_cons, (Hw (name +:+ "." +:+ e)).
    rewrite (Hpre e (or_introl eq_refl)).
    rewrite IH by (intros x Hx; apply Hpre; now right).
    reflexivity.
Qed.

(** C3. In a world where probes answer [present] and change nothing,
    whatever the base path: resolution returns the name with the
    first-listed extension for which a file exists; when no listed
    extension has a file, it returns the default path if one is supplied
    and exists; when neither, it returns no match. *)
Theorem C3_findFileMatch_resolution
        (present : string -> bool) (w : World)
        (basePath name : string) (exts : list string)
        (defaultPath : option string) :
  probes_read present w ->
  (forall pre ext post,
      exts = pre ++ ext :: post ->
      (forall e, In e pre -> present (name +:+ "." +:+ e) = false) ->
      present (name +:+ "." +:+ ext) = true ->
      outcome (findFileMatch basePath name exts defaultPath w)
      = Ok (Some (name +:+ "." +:+ ext)))
  /\ ((forall e, In e exts -> present (name +:+ "." +:+ e) = false) ->
      forall d, defaultPath = Some d -> d <> "" -> present d = true ->
      outcome (findFileMatch basePath name exts defaultPath w) = Ok (Some d))
  /\ ((forall e, In e exts -> present (name +:+ "." +:+ e) = false) ->
      (defaultPath = None \/ defaultPath = Some ""
       \/ exists d, defaultPath = Some d /\ present d = false) ->
      outcome (findFileMatch basePath name exts defaultPath w) = Ok None).
Proof.
  intros Hw. split; [|split].
  - intros pre ext post -> Hpre Hext.
    rewrite (findFileMatch_skip present w) by assumption.
    rewrite outcome_of, findFileMatch_cons, (Hw (name +:+ "." +:+ ext)), Hext.
    reflexivity.
  - intros Hnone d -> Hd Hp.
    rewrite <- (app_nil_r exts).
    rewrite (findFileMatch_skip present w) by assumption.
    rewrite outcome_of, findFileMatch_nil.
    destruct (String.eqb_spec d ""); [contradiction|].
    now rewrite (Hw d), Hp.
  - intros Hnone Hd.
    rewrite <- (app_nil_r exts).
    rewrite (findFileMatch_skip present w) by assumption.
    rewrite outcome_of, findFileMatch_nil.
    destruct Hd as [->|[->|(d & -> & Hd)]]; try reflexivity.
    destruct (d =? ""); [reflexivity|].
    now rewrite (Hw d), Hd.
Qed.

End FindFileMatchFacts.

(* ================================================================== *)
(** ** Building images *)

Section BuildFacts.
Context {settings : Settings} {path : PathLib} {host : Host}
        {scope : ModuleScope}.
Import AssetGenerator.

Lemma writes_bind {A B : Type} (m : M A) (k : A -> M B) (w : World) (b : B) :
  outcome (bind m k w) = Ok b ->
  exists a,
    outcome (m w) = Ok a
    /\ outcome (k a (world_after (m w))) = Ok b
    /\ writes (trace (bind m k w))
       = writes (trace (m w)) ++ writes (trace (k a (world_after (m w)))).
Proof.
  intros H. apply bind_fulfilled in H as (a & w1 & t1 & E & H & Ht).
  exists a. rewrite Ht, writes_app, E. auto.
Qed.

Lemma writes_await {X : Type} (c : call X) (w : World) :
  writes (trace (await c w)) = written_by (event_of c (fst (handle X c w))).
Proof.
  rewrite await_run. cbn. apply app_nil_r.
Qed.

Lemma writes_console_log (message : string) (w : World) :
  writes (trace (console_log message w)) = [].
Proof. reflexivity. Qed.

Lemma writes_findFileMatch (basePath name : string) (exts : list string)
      (defaultPath : option string) (w : World) :
  writes (trace (findFileMatch basePath name exts defaultPath w)) = [].
Proof.
  pose proof (findFileMatch_only_probes basePath name exts defaultPath w) as H.
  induction H as [|e t (p & a & ->) _ IH]; [reflexivity|exact IH].
Qed.

(** A fulfilled build of one image writes one file, at the image path of
    the definition under the target path, whether copied or scaled. *)
Lemma buildImage_writes (sourcePath : string) (baseImagePath : option string)
      (d : Def.t) (exts : list string) (targetPath : string)
      (bgColor : JS.value) (w : World) :
  outcome (buildImage sourcePath baseImagePath d exts targetPath bgColor w)
  = Ok tt ->
  writes (trace (buildImage sourcePath baseImagePath d exts targetPath bgColor w))
  = [written_path targetPath d].
Proof.
  unfold buildImage. intros H.
  apply writes_bind in H as (u & _ & H & ->).
  rewrite writes_await. cbn [event_of written_by app].
  apply writes_bind in H as (existing & _ & H & ->).
  rewrite writes_findFileMatch. cbn [app].
  destruct existing as [e|]; cbn [truthy_path] in *.
  - destruct (e =? ""); cbn [negb] in *.
    + apply writes_bind in H as (u2 & _ & H & ->).
      unfold scaleImage. rewrite writes_await. reflexivity.
    + apply writes_bind in H as (u2 & _ & H & ->).
      rewrite writes_await. reflexivity.
  - apply writes_bind in H as (u2 & _ & H & ->).
    unfold scaleImage. rewrite writes_await. reflexivity.
Qed.

Lemma buildImages_writes (sourcePath : string) (baseImagePath : option string)
      (imageDefs : list Def.t) (exts : list string) (targetPath : string)
      (bgColor : JS.value) (w : World) :
  outcome (buildImages sourcePath baseImagePath imageDefs exts targetPath
                       bgColor w) = Ok tt ->
  writes (trace (buildImages sourcePath baseImagePath imageDefs exts targetPath
                             bgColor w))
  = map (written_path targetPath) imageDefs.
Proof.
  revert w. induction imageDefs as [|d rest IH]; intros w H.
  - reflexivity.
  - cbn [buildImages] in *.
    apply writes_bind in H as ([] & Hd & H & ->).
    rewrite (buildImage_writes _ _ _ _ _ _ _ Hd), (IH _ H). reflexivity.
Qed.

(** The files written by a fulfilled run of the image step: one per entry
    of the icon table, then one per ['std'] and one per ['ios'] entry of
    the splashscreen table. *)
Lemma make_writes (opts : BuildOptions) (source target : string) (w : World) :
  outcome (make opts source target w) = Ok tt ->
  writes (trace (make opts source target w))
  = map (written_path (Path_join target TargetImagePath)) AppIconDefs
    ++ map (written_path (Path_join target TargetImagePath))
           (map Splash.image
                (filter (fun d => Splash.target d =? "std") SplashscreenDefs))
    ++ map (written_path (Path_join target TargetImagePath))
           (map Splash.image
                (filter (fun d => Splash.target d =? "ios") SplashscreenDefs)).
Proof.
  unfold make. intros H.
  apply writes_bind in H as (m & _ & H & ->).
  rewrite writes_await. cbn [event_of written_by app]. cbv zeta in H |- *.
  apply writes_bind in H as (u & _ & H & ->).
  rewrite writes_await. cbn [event_of written_by app].
  apply writes_bind in H as (baseAppIconPath & _ & H & ->).
  rewrite writes_findFileMatch. cbn [app].
  apply writes_bind in H as (u1 & _ & H & ->).
  rewrite writes_console_log. cbn [app].
  apply writes_bind in H as ([] & Hicons & H & ->).
  rewrite (buildImages_writes _ _ _ _ _ _ _ Hicons). f_equal. cbv beta in H |- *.
  apply writes_bind in H as (baseStd & _ & H & ->).
  rewrite writes_findFileMatch. cbn [app].
  apply writes_bind in H as (u2 & _ & H & ->).
  rewrite writes_console_log. cbn [app].
  apply writes_bind in H as ([] & Hstd & H & ->).
  rewrite (buildImages_writes _ _ _ _ _ _ _ Hstd). f_equal. cbv beta in H |- *.
  apply writes_bind in H as (baseIos & _ & H & ->).
  rewrite writes_findFileMatch. cbn [app].
  apply writes_bind in H as (u3 & _ & H & ->).
  rewrite writes_console_log. cbn [app].
  now apply buildImages_writes.
Qed.

Lemma writes_bind_eq {A B : Type} (m : M A) (k : A -> M B) (w : World) :
  writes (trace (bind m k w))
  = writes (trace (m w))
    ++ match outcome (m w) with
       | Ok a => writes (trace (k a (world_after (m w))))
       | Rejected _ => []
       end.
Proof.
  destruct (m w) as [[[a|e] w1] t1] eqn:E.
  - rewrite (bind_Ok m k w w1 a t1 E), !trace_of, writes_app. reflexivity.
  - rewrite (bind_Rejected m k w w1 e t1 E), !trace_of. cbn.
    now rewrite app_nil_r.
Qed.

Lemma initial_nil (full : list string) : initial_part [] full.
Proof. now exists full. Qed.

Lemma initial_refl (full : list string) : initial_part full full.
Proof. exists []. now rewrite app_nil_r. Qed.

Lemma initial_app (x l full : list string) :
  initial_part l full -> initial_part (x ++ l) (x ++ full).
Proof.
  intros (rest & ->). exists rest. now rewrite app_assoc.
Qed.

Lemma initial_weaken (l full more : list string) :
  initial_part l full -> initial_part l (full ++ more).
Proof.
  intros (rest & ->). exists (rest ++ more). now rewrite app_assoc.
Qed.

(** Fulfilled or not, the build of one image writes at most the one file
    of its definition. *)
Lemma buildImage_writes_initial (sourcePath : string)
      (baseImagePath : option string) (d : Def.t) (exts : list string)
      (targetPath : string) (bgColor : JS.value) (w : World) :
  initial_part
    (writes (trace (buildImage sourcePath baseImagePath d exts targetPath
                               bgColor w)))
    [written_path targetPath d].
Proof.
  unfold buildImage.
  rewrite writes_bind_eq, writes_await. cbn [event_of written_by app].
  destruct (outcome (await _ w)); [|apply initial_nil].
  rewrite writes_bind_eq, writes_findFileMatch. cbn [app].
  destruct (outcome (findFileMatch _ _ _ _ _)) as [existing|e];
    [|apply initial_nil].
  destruct existing as [e|]; cbn [truthy_path].
  - destruct (e =? ""); cbn [negb];
      rewrite writes_bind_eq, writes_console_log; cbn [app outcome console_log fst];
      unfold scaleImage; rewrite writes_await; apply initial_refl.
  - rewrite writes_bind_eq, writes_console_log. cbn [app outcome console_log fst].
    unfold scaleImage. rewrite writes_await. apply initial_refl.
Qed.

Lemma buildImages_writes_initial (sourcePath : string)
      (baseImagePath : option string) (imageDefs : list Def.t)
      (exts : list string) (targetPath : string) (bgColor : JS.value)
      (w : World) :
  initial_part
    (writes (trace (buildImages sourcePath baseImagePath imageDefs exts
                                targetPath bgColor w)))
    (map (written_path targetPath) imageDefs).
Proof.
  revert w. induction imageDefs as [|d rest IH]; intros w.
  - apply initial_nil.
  - cbn [buildImages map]. rewrite writes_bind_eq.
    destruct (outcome (buildImage _ _ d _ _ _ w)) as [[]|e] eqn:E.
    + rewrite (buildImage_writes _ _ _ _ _ _ _ E).
      apply (initial_app [written_path targetPath d]). apply IH.
    + rewrite app_nil_r.
      apply (initial_weaken _ [written_path targetPath d]).
      apply buildImage_writes_initial.
Qed.

(** Whatever happens, the files a run of the image step writes are an
    initial part of: one per entry of the icon table, then one per ['std']
    and one per ['ios'] entry of the splashscreen table. *)
Lemma make_writes_initial (opts : BuildOptions) (source target : string)
      (w : World) :
  initial_part
    (writes (trace (make opts source target w)))
    (map (written_path (Path_join target TargetImagePath)) AppIconDefs
     ++ map (written_path (Path_join target TargetImagePath))
            (map Splash.image
                 (filter (fun d => Splash.target d =? "std") SplashscreenDefs))
     ++ map (written_path (Path_join target TargetImagePath))
            (map Splash.image
                 (filter (fun d => Splash.target d =? "ios") SplashscreenDefs))).
Proof.
  unfold make.
  rewrite writes_bind_eq, writes_await. cbn [event_of written_by app].
  destruct (outcome (await _ w)) as [m|e]; [|apply initial_nil]. cbv zeta.
  rewrite writes_bind_eq, writes_await. cbn [event_of written_by app].
  destruct (outcome (await _ _)) as [u|e]; [|apply initial_nil].
  rewrite writes_bind_eq, writes_findFileMatch. cbn [app].
  destruct (outcome (findFileMatch _ _ _ _ _)) as [baseAppIconPath|e];
    [|apply initial_nil].
  rewrite writes_bind_eq, writes_console_log. cbn [app outcome console_log fst].
  rewrite writes_bind_eq.
  destruct (outcome (buildImages _ _ AppIconDefs _ _ _ _)) as [[]|e] eqn:Hicons;
    [|rewrite app_nil_r; apply initial_weaken, buildImages_writes_initial].
  rewrite (buildImages_writes _ _ _ _ _ _ _ Hicons). apply initial_app.
  rewrite writes_bind_eq, writes_findFileMatch. cbn [app].
  destruct (outcome (findFileMatch _ _ _ _ _)) as [baseStd|e];
    [|apply initial_nil].
  rewrite writes_bind_eq, writes_console_log. cbn [app outcome console_log fst].
  rewrite writes_bind_eq.
  destruct (outcome (buildImages _ _ (map Splash.image _) _ _ _ _))
    as [[]|e] eqn:Hstd;
    [|rewrite app_nil_r; apply initial_weaken, buildImages_writes_initial].
  rewrite (buildImages_writes _ _ _ _ _ _ _ Hstd). apply initial_app.
  rewrite writes_bind_eq, writes_findFileMatch. cbn [app].
  destruct (outcome (findFileMatch _ _ _ _ _)) as [baseIos|e];
    [|apply initial_nil].
  rewrite writes_bind_eq, writes_console_log. cbn [app outcome console_log fst].
  apply buildImages_writes_initial.
Qed.

(** The run begins by loading the manifest and, once it is loaded, by
    removing the target image directory. *)
Lemma make_trace_shape (opts : BuildOptions) (source target : string)
      (w : World) :
  trace (make opts source target w) = [EvLoadManifest opts source]
  \/ exists rest,
      trace (make opts source target w)
      = EvLoadManifest opts source
          :: EvRmrf (Path_join target TargetImagePath) :: rest.
Proof.
  unfold make.
  destruct (handle Manifest (loadManifest opts source) w) as [[m|e] w1] eqn:E.
  - right.
    rewrite (bind_Ok _ _ w w1 m [EvLoadManifest opts source])
      by (rewrite await_run, E; reflexivity).
    rewrite trace_of. cbv zeta.
    destruct (handle unit (rmrf (Path_join target TargetImagePath)) w1)
      as [[u|e] w2] eqn:E2.
    + rewrite (bind_Ok _ _ w1 w2 u [EvRmrf (Path_join target TargetImagePath)])
        by (rewrite await_run, E2; reflexivity).
      rewrite trace_of. cbn [app]. eauto.
    + rewrite (bind_Rejected _ _ w1 w2 e [EvRmrf (Path_join target TargetImagePath)])
        by (rewrite await_run, E2; reflexivity).
      rewrite trace_of. cbn [app]. eauto.
  - left.
    rewrite (bind_Rejected _ _ w w1 e [EvLoadManifest opts source])
      by (rewrite await_run, E; reflexivity).
    reflexivity.
Qed.

(** C7. In every run of the image step the removal of the target image
    directory comes before every call that creates a directory, copies or
    scales: the run starts by loading the manifest, the next call is the
    removal, and whatever builds comes after it; the removal is made as
    soon as the manifest is loaded, whatever the manifest holds and
    whatever the state of the world. *)
Theorem C7_removal_precedes_every_build_effect
        (opts : BuildOptions) (source target : string) (w : World) :
  (trace (make opts source target w) = [EvLoadManifest opts source]
   \/ exists rest,
       trace (make opts source target w)
       = EvLoadManifest opts source
           :: EvRmrf (Path_join target TargetImagePath) :: rest)
  /\ (forall before e after,
         trace (make opts source target w) = before ++ e :: after ->
         builds e = true ->
         In (EvRmrf (Path_join target TargetImagePath)) before)
  /\ (forall m w1,
         handle Manifest (loadManifest opts source) w = (Ok m, w1) ->
         In (EvRmrf (Path_join target TargetImagePath))
            (trace (make opts source target w))).
Proof.
  split; [apply make_trace_shape|split].
  - intros before e after Ht He.
    destruct (make_trace_shape opts source target w) as [Hs|(rest & Hs)];
      rewrite Hs in Ht.
    + destruct before as [|x [|y before]]; cbn in Ht.
      * injection Ht as <- _. discriminate He.
      * injection Ht as _ Ht. discriminate Ht.
      * injection Ht as _ Ht. discriminate Ht.
    + destruct before as [|x [|y before]]; cbn in Ht.
      * injection Ht as <- _. discriminate He.
      * injection Ht as _ <- _. discriminate He.
      * injection Ht as _ <- _. cbn. auto.
  - intros m w1 E.
    destruct (make_trace_shape opts source target w) as [Hs|(rest & Hs)].
    + exfalso. revert Hs. unfold make.
      rewrite (bind_Ok _ _ w w1 m [EvLoadManifest opts source])
        by (rewrite await_run, E; reflexivity).
      rewrite trace_of. cbv zeta.
      destruct (handle unit (rmrf (Path_join target TargetImagePath)) w1)
        as [[u|e] w2] eqn:E2.
      * rewrite (bind_Ok _ _ w1 w2 u [EvRmrf (Path_join target TargetImagePath)])
          by (rewrite await_run, E2; reflexivity).
        rewrite trace_of. discriminate.
      * rewrite (bind_Rejected _ _ w1 w2 e [EvRmrf (Path_join target TargetImagePath)])
          by (rewrite await_run, E2; reflexivity).
        rewrite trace_of. discriminate.
    + rewrite Hs. cbn. auto.
Qed.

End BuildFacts.

(* ================================================================== *)
(** ** Lists *)

Lemma filter_shorter {A : Type} (f : A -> bool) (l : list A) (x : A) :
  In x l -> f x = false -> (length (filter f l) < length l)%nat.
Proof.
  induction l as [|a l IH]; cbn; [tauto|].
  pose proof (filter_length_le f l) as Hle.
  intros [->|Hin] Hx.
  - rewrite Hx. lia.
  - specialize (IH Hin Hx). destruct (f a); cbn; lia.
Qed.

(* ================================================================== *)
(** ** Runs on the example host *)

Lemma In_by_eqb (x : string) (l : list string) :
  existsb (String.eqb x) l = true -> In x l.
Proof.
  intros H. apply existsb_exists in H as (y & Hy & E).
  apply String.eqb_eq in E. now subst.
Qed.

(** C1. A run on the example site, whose icon table has the definition
    [{target: 'ios', w: 120, h: 120}]: the run is fulfilled and the files it
    writes are those listed, under [pwa/{target}/] and without extension.
    Nothing is written at [pwa/appicon/120x120.png], the path of the
    specified file layout and the one the header generator puts in its
    apple-touch-icon link for the same definition. *)
Theorem C1_icon_is_not_written_under_appicon :
  outcome (@AssetGenerator.make Demo.settings Posix.lib (Sim.host Demo.manifest)
             Demo.scope Demo.opts "site" "out" Demo.files) = Ok tt
  /\ writes (trace (@AssetGenerator.make Demo.settings Posix.lib
                      (Sim.host Demo.manifest) Demo.scope Demo.opts
                      "site" "out" Demo.files))
     = [ "out/pwa/ios/120x120"; "out/pwa/ios/180x180"; "out/pwa/std/192x192";
         "out/pwa/std/1280x720"; "out/pwa/ios/640x1136" ]
  /\ Sim.present
       (world_after (@AssetGenerator.make Demo.settings Posix.lib
                       (Sim.host Demo.manifest) Demo.scope Demo.opts
                       "site" "out" Demo.files))
       "out/pwa/appicon/120x120.png" = false
  /\ In (JS.q "<link rel='apple-touch-icon' sizes='120x120' href='pwa/appicon/120x120.png' />")
        (@printed Demo.settings Demo.opts Demo.pwa).
Proof.
  repeat split; try (vm_compute; reflexivity).
  apply In_by_eqb. vm_compute. reflexivity.
Qed.

(** C4. The image build for [{target: 'ios', w: 120, h: 120}] on the
    example site, where the pre-scaled image [site/_pwa/ios/120x120.png]
    exists in the source tree [site/_pwa] given to [buildImages]: the probes
    are made at [ios/120x120.png] and [ios/120x120.svg], without the source
    path, nothing is found, and the image is scaled from the base image
    instead of being copied. *)
Theorem C4_prescaled_image_in_source_tree_is_not_copied :
  Sim.present Demo.files "site/_pwa/ios/120x120.png" = true
  /\ trace (@AssetGenerator.buildImages Posix.lib (Sim.host Demo.manifest)
              "site/_pwa" (Some "/opt/build-tools/assets/appicon.png")
              [Def.make "ios" 120 120] ["png"; "svg"] "out/pwa" (JS.Str "#fff")
              Demo.files)
     = [ EvEnsureDir "out/pwa/ios";
         EvExists "ios/120x120.png" (Some false);
         EvExists "ios/120x120.svg" (Some false);
         EvLog (JS.tab +:+ "Scaling /opt/build-tools/assets/appicon.png -> out/pwa/ios/120x120");
         EvExec "convert"
           [ JS.Str "/opt/build-tools/assets/appicon.png";
             JS.Str "-resize"; JS.Str "120x120^";
             JS.Str "-background"; JS.Str "#fff";
             JS.Str "-compose"; JS.Str "Copy";
             JS.Str "-gravity"; JS.Str "center";
             JS.Str "-extent"; JS.Str "120x120";
             JS.Str "out/pwa/ios/120x120" ] ].
Proof.
  split; vm_compute; reflexivity.
Qed.

(** C6 does not hold as stated: with [indentSize = 2] the header of the example
    manifest has the line of an apple-touch-startup-image link's [href],
    which is not blank and begins with six spaces. *)
Lemma C6_counterexample :
  ~ indented_by 2 (@HeaderGenerator.html Demo.settings Demo.opts2 Demo.pwa).
Proof.
  intros H.
  specialize (H (JS.q "      href='pwa/splashscreen/640x1136.png'")).
  assert (E : leading_spaces (JS.q "      href='pwa/splashscreen/640x1136.png'")
              = 2%nat).
  { apply H.
    - apply In_by_eqb. vm_compute. reflexivity.
    - vm_compute. discriminate. }
  vm_compute in E. discriminate E.
Qed.

(** The status bar style of the two example manifests: ['black'] is kept;
    a missing style on a full-screen application gives
    ['black-translucent']. *)
Lemma C2_witness :
  HeaderGenerator.getStatusBarStyle Demo.pwa = JS.Str "black"
  /\ HeaderGenerator.getStatusBarStyle Demo.pwa_banner
     = JS.Str "black-translucent".
Proof.
  split.
  - apply (proj1 (@C2_status_bar_style Demo.settings Demo.opts Demo.pwa)).
    right; left; reflexivity.
  - apply (proj1 (proj2 (@C2_status_bar_style Demo.settings Demo.opts
                           Demo.pwa_banner))).
    intros [H|[H|H]]; discriminate H.
Defined.

Lemma sim_probes_read (m : Manifest) (files : list string) :
  @probes_read (Sim.host m) (Sim.present files) files.
Proof.
  intros p. reflexivity.
Qed.

(** Resolution on the example host: [appicon.png] wins over [appicon.svg]
    when both exist; the bundled default is returned when the site has no
    icon of its own; nothing is returned when there is no default either. *)
Lemma C3_witness :
  outcome (@AssetGenerator.findFileMatch (Sim.host Demo.manifest)
             "site/_pwa" "appicon" ["png"; "svg"]
             (Some "/opt/build-tools/assets/appicon.png") Demo.files_own_icon)
  = Ok (Some "appicon.png")
  /\ outcome (@AssetGenerator.findFileMatch (Sim.host Demo.manifest)
                "site/_pwa" "appicon" ["png"; "svg"]
                (Some "/opt/build-tools/assets/appicon.png") Demo.files)
     = Ok (Some "/opt/build-tools/assets/appicon.png")
  /\ outcome (@AssetGenerator.findFileMatch (Sim.host Demo.manifest)
                "site/_pwa" "appicon" ["png"; "svg"] None Demo.files)
     = Ok None.
Proof.
  split; [|split].
  - apply (proj1 (@C3_findFileMatch_resolution (Sim.host Demo.manifest)
                    (Sim.present Demo.files_own_icon) Demo.files_own_icon
                    "site/_pwa" "appicon" ["png"; "svg"]
                    (Some "/opt/build-tools/assets/appicon.png")
                    (sim_probes_read Demo.manifest Demo.files_own_icon))
                 [] "png" ["svg"]).
    + reflexivity.
    + intros e [].
    + reflexivity.
  - apply (proj1 (proj2 (@C3_findFileMatch_resolution (Sim.host Demo.manifest)
                           (Sim.present Demo.files) Demo.files
                           "site/_pwa" "appicon" ["png"; "svg"]
                           (Some "/opt/build-tools/assets/appicon.png")
                           (sim_probes_read Demo.manifest Demo.files)))).
    + intros e [<-|[<-|[]]]; reflexivity.
    + reflexivity.
    + discriminate.
    + reflexivity.
  - apply (proj2 (proj2 (@C3_findFileMatch_resolution (Sim.host Demo.manifest)
                           (Sim.present Demo.files) Demo.files
                           "site/_pwa" "appicon" ["png"; "svg"] None
                           (sim_probes_read Demo.manifest Demo.files)))).
    + intros e [<-|[<-|[]]]; reflexivity.
    + left. reflexivity.
Defined.

(** With [indentSize = 2] the [href] line of the example startup-image link
    is printed behind six spaces, the link's first line behind two; no text
    of the example holds a line feed, and the line of the header that
    begins with six spaces is that [href] line behind the indent. *)
Lemma C6_witness :
  leading_spaces ("  " +:+ JS.q "    href='pwa/splashscreen/640x1136.png'")
  = 6%nat
  /\ leading_spaces ("  " +:+ JS.q "<link rel='apple-touch-startup-image'")
     = 2%nat
  /\ (JS.q "      href='pwa/splashscreen/640x1136.png'" = ""
      \/ exists text,
          In text (@printed Demo.settings Demo.opts2 Demo.pwa)
          /\ JS.q "      href='pwa/splashscreen/640x1136.png'" = "  " +:+ text
          /\ leading_spaces (JS.q "      href='pwa/splashscreen/640x1136.png'")
             = if is_continuation text then 6%nat else 2%nat).
Proof.
  split; [|split].
  - apply (proj1 (proj2 (@C6_indent_two_amended Demo.settings Demo.pwa))
             (JS.q "    href='pwa/splashscreen/640x1136.png'")).
    apply In_by_eqb. vm_compute. reflexivity.
  - apply (proj1 (proj2 (@C6_indent_two_amended Demo.settings Demo.pwa))
             (JS.q "<link rel='apple-touch-startup-image'")).
    apply In_by_eqb. vm_compute. reflexivity.
  - apply (proj2 (proj2 (@C6_indent_two_amended Demo.settings Demo.pwa))).
    + intros text Ht.
      assert (Hall : forallb (fun t => negb (has_line_feed t))
                             (@printed Demo.settings Demo.opts2 Demo.pwa) = true)
        by (vm_compute; reflexivity).
      rewrite forallb_forall in Hall. specialize (Hall text Ht).
      now destruct (has_line_feed text).
    + apply In_by_eqb. vm_compute. reflexivity.
Defined.

(** On the example site the first directory is created after the removal
    of [out/pwa]. *)
Lemma C7_witness :
  In (EvRmrf "out/pwa")
     [ EvLoadManifest Demo.opts "site";
       EvRmrf "out/pwa";
       EvExists "appicon.png" (Some false);
       EvExists "appicon.svg" (Some false);
       EvExists "/opt/build-tools/assets/appicon.png" (Some true);
       EvLog "Building app icons..." ].
Proof.
  apply (proj1 (proj2 (@C7_removal_precedes_every_build_effect
                         Demo.settings Posix.lib (Sim.host Demo.manifest)
                         Demo.scope Demo.opts "site" "out" Demo.files))
           _ (EvEnsureDir "out/pwa/ios")
           (skipn 7 (trace (@AssetGenerator.make Demo.settings Posix.lib
                              (Sim.host Demo.manifest) Demo.scope Demo.opts
                              "site" "out" Demo.files)))).
  - vm_compute. reflexivity.
  - reflexivity.
Defined.

(** On the example site the base icon returned is the bundled default, and
    the probe of that path answered true. *)
Lemma C9_witness :
  In (EvExists "/opt/build-tools/assets/appicon.png" (Some true))
     (trace (@AssetGenerator.findFileMatch (Sim.host Demo.manifest)
               "site/_pwa" "appicon" ["png"; "svg"]
               (Some "/opt/build-tools/assets/appicon.png") Demo.files)).
Proof.
  apply (@C9_findFileMatch_returns_probed_path (Sim.host Demo.manifest)
           "site/_pwa" "appicon" ["png"; "svg"]
           (Some "/opt/build-tools/assets/appicon.png") Demo.files
           "/opt/build-tools/assets/appicon.png").
  reflexivity.
Defined.

(* ================================================================== *)
(** ** Further properties of the header generator *)

Lemma length_repeat_char (c : ascii) (n : nat) :
  String.length (JS.repeat_char c n) = n.
Proof.
  induction n as [|n IH]; simpl; [reflexivity | now rewrite IH].
Qed.

Lemma all_spaces_repeat (n : nat) : all_spaces (JS.repeat_char " " n) = true.
Proof.
  induction n as [|n IH]; simpl; [reflexivity | exact IH].
Qed.

Lemma trimStart_no_space (s : string) :
  starts_with_space (JS.trimStart s) = false.
Proof.
  induction s as [|c s IH]; simpl; [reflexivity|].
  destruct (JS.is_space c) eqn:E; [exact IH|]. simpl. exact E.
Qed.

Lemma trimStart_before_nonspace (x y : string) (c : ascii) :
  JS.is_space c = false ->
  JS.trimStart (x +:+ String c y) = JS.trimStart x +:+ String c y.
Proof.
  intros Hc. induction x as [|a x IH]; simpl.
  - now rewrite Hc.
  - destruct (JS.is_space a); [exact IH | reflexivity].
Qed.

(** A trimmed text has white space at neither end. *)
Lemma trim_no_space (s : string) :
  starts_with_space (JS.trim s) = false /\ ends_with_space (JS.trim s) = false.
Proof.
  unfold JS.trim, ends_with_space. rewrite reverse_involutive. split.
  - pose proof (trimStart_no_space s) as H.
    destruct (JS.trimStart s) as [|c t]; [reflexivity|].
    simpl in H.
    change (String c t) with (String c "" +:+ t).
    rewrite reverse_append.
    change (JS.reverse (String c "")) with (String c "").
    rewrite (trimStart_before_nonspace _ "" c H), reverse_append.
    change (JS.reverse (String c "")) with (String c "").
    simpl. exact H.
  - apply trimStart_no_space.
Qed.

Section HeaderMore.
Context {settings : Settings}.
Import HeaderGenerator.

(** X1. Whatever the manifest holds, the status bar style the header
    generator computes is one of ['default'], ['black'] and
    ['black-translucent']. *)
Theorem X1_status_bar_style_always_valid (pwa : PWA) :
  In (getStatusBarStyle pwa)
     [JS.Str "default"; JS.Str "black"; JS.Str "black-translucent"].
Proof.
  unfold getStatusBarStyle.
  destruct (statusBarStyle (ios pwa)) as [| |b|n|s]; cbn [JS.strict_eq_str orb];
    try (destruct (JS.loose_eq_str (display pwa) "fullscreen"); cbn; tauto).
  destruct (String.eqb_spec s "default") as [->|_]; [cbn; tauto|].
  destruct (String.eqb_spec s "black") as [->|_]; [cbn; tauto|].
  destruct (String.eqb_spec s "black-translucent") as [->|_]; [cbn; tauto|].
  cbn [orb]. destruct (JS.loose_eq_str (display pwa) "fullscreen"); cbn; tauto.
Qed.

Lemma getStatusBarStyle_fallback (pwa : PWA) :
  ~ In (statusBarStyle (ios pwa))
       [JS.Str "default"; JS.Str "black"; JS.Str "black-translucent"] ->
  getStatusBarStyle pwa
  = JS.Str (if JS.loose_eq_str (display pwa) "fullscreen"
            then "black-translucent" else "default").
Proof.
  intros Hn. unfold getStatusBarStyle.
  destruct (statusBarStyle (ios pwa)) as [| |b|n|s]; cbn [JS.strict_eq_str orb];
    try (destruct (JS.loose_eq_str (display pwa) "fullscreen"); reflexivity).
  destruct (String.eqb_spec s "default") as [->|_]; [cbn in Hn; tauto|].
  destruct (String.eqb_spec s "black") as [->|_]; [cbn in Hn; tauto|].
  destruct (String.eqb_spec s "black-translucent") as [->|_]; [cbn in Hn; tauto|].
  cbn [orb]. destruct (JS.loose_eq_str (display pwa) "fullscreen"); reflexivity.
Qed.

(** X2. The web-app-capable value is ['yes'] exactly when [pwa.display] is
    the string ['fullscreen'] and ['no'] for every other value, a missing
    one, a boolean or a number included; and when the manifest gives no
    valid status bar style, the style is ['black-translucent'] exactly when
    the application is capable. *)
Theorem X2_capable_and_status_bar_agree (pwa : PWA) :
  (getWebAppCapable pwa = "yes" <-> display pwa = JS.Str "fullscreen")
  /\ (getWebAppCapable pwa = "no" <-> display pwa <> JS.Str "fullscreen")
  /\ (~ In (statusBarStyle (ios pwa))
           [JS.Str "default"; JS.Str "black"; JS.Str "black-translucent"] ->
      (getStatusBarStyle pwa = JS.Str "black-translucent"
       <-> getWebAppCapable pwa = "yes")).
Proof.
  assert (Hd : JS.loose_eq_str (display pwa) "fullscreen" = true
               <-> display pwa = JS.Str "fullscreen").
  { destruct (display pwa) as [| |b|n|s]; cbn; try (split; discriminate).
    rewrite String.eqb_eq. split; [now intros -> | now intros [= ->]]. }
  unfold getWebAppCapable. split; [|split].
  - destruct (JS.loose_eq_str (display pwa) "fullscreen").
    + split; [intros _; now apply Hd | reflexivity].
    + split; [discriminate|]. intros H. apply Hd in H. discriminate H.
  - destruct (JS.loose_eq_str (display pwa) "fullscreen").
    + split; [discriminate|]. intros H. exfalso. apply H. now apply Hd.
    + split; [|reflexivity]. intros _ H. apply Hd in H. discriminate H.
  - intros Hn. rewrite (getStatusBarStyle_fallback pwa Hn).
    destruct (JS.loose_eq_str (display pwa) "fullscreen");
      split; (reflexivity || discriminate).
Qed.

(** X3. A call of the printer only appends, and what it appends does not
    depend on what was printed before; a call with several lines is the
    same as one call per line, in order, and a call with the lines of two
    calls is the same as the two calls. *)
Theorem X3_print_appends_and_composes
        (p : Printer) (a b : string) (l m : list string) (result : string) :
  (forall arguments,
      print p arguments result = result +:+ print p arguments "")
  /\ print p (a :: l) result
     = fold_left (fun result line => print p [line] result) (a :: l) result
  /\ print p ((a :: l) ++ (b :: m)) result
     = print p (b :: m) (print p (a :: l) result).
Proof.
  split; [|split].
  - intros arguments. rewrite (print_render p arguments result).
    now rewrite (print_render p arguments "").
  - reflexivity.
  - unfold print. cbn [app]. rewrite <- fold_left_app. reflexivity.
Qed.

(** X4. The printer of the build options: the indent is made of spaces
    only, as many as [indentSize], four when the option is missing; lines
    are trimmed exactly when [indentSize] is [0]; a negative [indentSize]
    gives no indent and, unlike [0], no trimming. *)
Theorem X4_printer_of_options (opts : BuildOptions) :
  String.length (indent (getPrinter opts))
  = match indentSize opts with
    | Some n => Z.to_nat n
    | None => 4%nat
    end
  /\ all_spaces (indent (getPrinter opts)) = true
  /\ (trim (getPrinter opts) = true <-> indentSize opts = Some 0%Z)
  /\ (forall n, indentSize opts = Some n -> (n < 0)%Z ->
      indent (getPrinter opts) = "" /\ trim (getPrinter opts) = false).
Proof.
  unfold getPrinter. cbn [indent trim]. unfold JS.padEnd.
  cbn [String.append String.length]. rewrite Nat.sub_0_r.
  split; [|split; [|split]].
  - apply length_repeat_char.
  - apply all_spaces_repeat.
  - destruct (indentSize opts) as [n|]; [|split; discriminate].
    rewrite Z.eqb_eq. split; [now intros -> | now intros [= ->]].
  - intros n -> Hn. split.
    + destruct n; try lia. reflexivity.
    + apply Z.eqb_neq. lia.
Qed.

Lemma reverse_nil (s : string) : JS.reverse s = "" -> s = "".
Proof.
  intros H. rewrite <- (reverse_involutive s), H. reflexivity.
Qed.

(** Trimming keeps a character that is not white space. *)
Lemma trim_keeps_text (x y : string) (c : ascii) :
  JS.is_space c = false -> JS.trim (x +:+ String c y) <> "".
Proof.
  intros Hc H. unfold JS.trim in H. apply reverse_nil in H.
  rewrite (trimStart_before_nonspace x y c Hc) in H.
  rewrite reverse_append in H.
  change (String c y) with (String c "" +:+ y) in H.
  rewrite reverse_append in H.
  change (JS.reverse (String c "")) with (String c "") in H.
  rewrite append_assoc in H. cbn [String.append] in H.
  rewrite (trimStart_before_nonspace _ _ c Hc) in H.
  destruct (JS.trimStart (JS.reverse y)); discriminate H.
Qed.

(** Every text given to the printer holds a character that is not white
    space: ['<'] first, or, in the continuation lines, after four spaces. *)
Lemma printed_text_trim_nonempty (opts : BuildOptions) (pwa : PWA)
      (text : string) :
  In text (printed opts pwa) -> JS.trim text <> "".
Proof.
  intros H. apply printed_cases in H.
  destruct H as [H|[(d & _ & ->)|[(d & _ & H)|[_ H]]]].
  - unfold fixed_lines in H. cbn [In] in H.
    repeat (destruct H as [<-|H];
            [exact (trim_keeps_text "" _ "<" eq_refl)|]).
    destruct H.
  - exact (trim_keeps_text "" _ "<" eq_refl).
  - unfold splashscreenLink in H. cbn [In] in H.
    destruct H as [<-|[<-|[<-|[]]]].
    + exact (trim_keeps_text "" _ "<" eq_refl).
    + exact (trim_keeps_text "    " _ "h" eq_refl).
    + exact (trim_keeps_text "    " _ "m" eq_refl).
  - cbn [In] in H. destruct H as [<-|[<-|[]]].
    + exact (trim_keeps_text "" _ "<" eq_refl).
    + exact (trim_keeps_text "" _ "<" eq_refl).
Qed.

(** X5. With [indentSize = 0] every line is printed as its text, trimmed,
    and a line feed, without indent; the trimmed text is not empty and has
    white space neither at its beginning nor at its end. *)
Theorem X5_indent_zero_prints_trimmed_lines (pwa : PWA) :
  html {| indentSize := Some 0%Z |} pwa
  = flatten (map (fun arguments =>
                    match arguments with
                    | [] => JS.nl
                    | _ => flatten (map (fun line => JS.trim line +:+ JS.nl)
                                        arguments)
                    end)
                 (calls {| indentSize := Some 0%Z |} pwa))
  /\ forall text,
       In text (printed {| indentSize := Some 0%Z |} pwa) ->
       JS.trim text <> ""
       /\ starts_with_space (JS.trim text) = false
       /\ ends_with_space (JS.trim text) = false.
Proof.
  split.
  - exact (html_render {| indentSize := Some 0%Z |} pwa).
  - intros text H. split.
    + exact (printed_text_trim_nonempty _ pwa text H).
    + apply trim_no_space.
Qed.

(** A tag printed alone that trimming leaves as it is, is in the header
    text whatever the build options. *)
Lemma tag_line_occurs (opts : BuildOptions) (pwa : PWA) (line : string) :
  In [line] (calls opts pwa) ->
  JS.trim line = line ->
  occurs_in (line +:+ JS.nl) (html opts pwa).
Proof.
  intros Hin Htrim.
  pose proof (printed_alone_occurs opts pwa line Hin) as H.
  cbv zeta in H. rewrite Htrim in H.
  destruct (trim (getPrinter opts));
    destruct H as (x & y & H); exists (x +:+ indent (getPrinter opts)), y;
    rewrite H, !append_assoc; reflexivity.
Qed.

(** X6. The header generator does not check the manifest: the title, the
    theme colour and the application title are printed from whatever the
    manifest holds, and a missing or null field is printed as the text
    [undefined] or [null]. *)
Theorem X6_missing_fields_are_printed_as_text
        (opts : BuildOptions) (pwa : PWA) :
  occurs_in ("<title>" +:+ JS.to_string (name pwa) +:+ "</title>" +:+ JS.nl)
            (html opts pwa)
  /\ (name pwa = JS.Undefined ->
      occurs_in ("<title>undefined</title>" +:+ JS.nl) (html opts pwa))
  /\ (background_color pwa = JS.Undefined ->
      occurs_in (JS.q "<meta name='theme-color' content='undefined' />" +:+ JS.nl)
                (html opts pwa))
  /\ (short_name pwa = JS.Null ->
      occurs_in (JS.q "<meta name='apple-mobile-web-app-title' content='null' />"
                   +:+ JS.nl)
                (html opts pwa)).
Proof.
  assert (Htitle : occurs_in (titleTag pwa +:+ JS.nl) (html opts pwa)).
  { apply tag_line_occurs.
    - unfold calls. cbn. tauto.
    - unfold titleTag. apply trim_tag; try reflexivity; discriminate. }
  assert (Htheme : occurs_in (themeColorTag pwa +:+ JS.nl) (html opts pwa)).
  { apply tag_line_occurs.
    - unfold calls. cbn. tauto.
    - unfold themeColorTag. apply trim_tag; try reflexivity; discriminate. }
  assert (Hshort : occurs_in (titleMeta pwa +:+ JS.nl) (html opts pwa)).
  { apply tag_line_occurs.
    - unfold calls. rewrite !in_app_iff.
      right; right; right; right; left. cbn. tauto.
    - unfold titleMeta. apply trim_tag; try reflexivity; discriminate. }
  split; [|split; [|split]].
  - unfold titleTag in Htitle. now rewrite !append_assoc in Htitle.
  - intros E. unfold titleTag in Htitle. rewrite E in Htitle. exact Htitle.
  - intros E. unfold themeColorTag in Htheme. rewrite E in Htheme. exact Htheme.
  - intros E. unfold titleMeta in Hshort. rewrite E in Hshort. exact Hshort.
Qed.

(** What a call prints ends with a line feed. *)
Lemma render_call_ends (p : Printer) (arguments : list string) :
  exists body, render_call p arguments = body +:+ JS.nl.
Proof.
  destruct arguments as [|a l]; [now exists ""|].
  unfold render_call. generalize (a :: l) (@nil_cons _ a l). clear.
  intros l. induction l as [|x l IH]; intros Hl; [congruence|].
  cbn [map flatten]. destruct l as [|y l].
  - cbn [map flatten]. rewrite append_nil_r.
    exists (indent p +:+ (if trim p then JS.trim x else x)).
    now rewrite !append_assoc.
  - apply suffix_append_l. apply IH. discriminate.
Qed.

Lemma rendered_calls_end (p : Printer) (cs : list (list string)) :
  cs <> [] -> exists body, flatten (map (render_call p) cs) = body +:+ JS.nl.
Proof.
  induction cs as [|c cs IH]; intros Hcs; [congruence|].
  cbn [map flatten]. destruct cs as [|c' cs].
  - cbn [map flatten]. rewrite append_nil_r. apply render_call_ends.
  - apply suffix_append_l. apply IH. discriminate.
Qed.

(** X8. Whatever the manifest and the build options, the header begins
    with the indented charset meta tag and ends with a line feed. *)
Theorem X8_header_begins_and_ends (opts : BuildOptions) (pwa : PWA) :
  (exists rest,
      html opts pwa
      = indent (getPrinter opts) +:+ JS.q "<meta charset='utf-8' />"
          +:+ JS.nl +:+ rest)
  /\ exists body, html opts pwa = body +:+ JS.nl.
Proof.
  rewrite html_render. split.
  - unfold calls. cbn [app map flatten]. rewrite render_single.
    replace (if trim (getPrinter opts)
             then JS.trim (JS.q "<meta charset='utf-8' />")
             else JS.q "<meta charset='utf-8' />")
      with (JS.q "<meta charset='utf-8' />")
      by (now destruct (trim (getPrinter opts))).
    match goal with
    | |- exists rest, ?a +:+ ?r = _ => exists r
    end.
    now rewrite !append_assoc.
  - apply rendered_calls_end. unfold calls. discriminate.
Qed.

End HeaderMore.

(* ================================================================== *)
(** ** Numbers in the manifest *)

(** A number of the manifest is printed as JavaScript prints it: in full
    below 2^53, from the nearest double above, and in exponent form from
    10^21. *)
Lemma Number_toString_examples :
  JS.to_string (JS.Num 42) = "42"
  /\ JS.to_string (JS.Num (-7)) = "-7"
  /\ JS.to_string (JS.Num (2 ^ 53 + 1)) = "9007199254740992"
  /\ JS.to_string (JS.Num (2 ^ 60)) = "1152921504606847000"
  /\ JS.to_string (JS.Num (10 ^ 21)) = "1e+21"
  /\ JS.to_string (JS.Num 123456789012345678901234) = "1.2345678901234569e+23"
  /\ JS.to_string (JS.Num (2 ^ 1024)) = "Infinity".
Proof.
  vm_compute. repeat split.
Qed.

(* ================================================================== *)
(** ** The lines of the header *)

Lemma has_line_feed_reverse (s : string) :
  has_line_feed (JS.reverse s) = has_line_feed s.
Proof.
  induction s as [|c s IH]; [reflexivity|].
  change (String c s) with (String c "" +:+ s).
  rewrite reverse_append, !has_line_feed_append, IH.
  change (JS.reverse (String c "")) with (String c "").
  apply orb_comm.
Qed.

Lemma has_line_feed_trimStart (s : string) :
  has_line_feed s = false -> has_line_feed (JS.trimStart s) = false.
Proof.
  induction s as [|c s IH]; [reflexivity|].
  intros H. cbn [JS.trimStart]. destruct (JS.is_space c); [|exact H].
  cbn [has_line_feed] in H. apply orb_false_iff in H as [_ H]. now apply IH.
Qed.

Lemma has_line_feed_trim (s : string) :
  has_line_feed s = false -> has_line_feed (JS.trim s) = false.
Proof.
  intros H. unfold JS.trim. rewrite has_line_feed_reverse.
  apply has_line_feed_trimStart. rewrite has_line_feed_reverse.
  now apply has_line_feed_trimStart.
Qed.

Lemma has_line_feed_spaces (i : string) :
  all_spaces i = true -> has_line_feed i = false.
Proof.
  induction i as [|c i IH]; [reflexivity|].
  cbn [all_spaces has_line_feed]. intros H.
  apply andb_true_iff in H as [Hc Hi]. apply Ascii.eqb_eq in Hc. subst c.
  now rewrite (IH Hi).
Qed.

Lemma trimStart_spaces (i y : string) :
  all_spaces i = true -> JS.trimStart (i +:+ y) = JS.trimStart y.
Proof.
  induction i as [|c i IH]; [reflexivity|].
  cbn [all_spaces]. intros H.
  apply andb_true_iff in H as [Hc Hi]. apply Ascii.eqb_eq in Hc. subst c.
  cbn [String.append JS.trimStart].
  change (JS.is_space " ") with true. cbv iota. now apply IH.
Qed.

Lemma trimStart_id (s : string) :
  starts_with_space s = false -> JS.trimStart s = s.
Proof.
  destruct s as [|c s]; [reflexivity|].
  cbn [starts_with_space JS.trimStart]. now intros ->.
Qed.

Lemma trimStart_idem (s : string) :
  JS.trimStart (JS.trimStart s) = JS.trimStart s.
Proof.
  apply trimStart_id, trimStart_no_space.
Qed.

(** Trimming a text whose last character is not white space only removes
    the white space it begins with. *)
Lemma trim_end_nonspace (x : string) (c : ascii) :
  JS.is_space c = false ->
  JS.trim (x +:+ String c "") = JS.trimStart (x +:+ String c "").
Proof.
  intros Hc. unfold JS.trim.
  rewrite (trimStart_before_nonspace x "" c Hc), reverse_append.
  change (JS.reverse (String c "")) with (String c "").
  cbn [String.append JS.trimStart]. rewrite Hc.
  change (String c (JS.reverse (JS.trimStart x)))
    with (String c "" +:+ JS.reverse (JS.trimStart x)).
  rewrite reverse_append, reverse_involutive. reflexivity.
Qed.

Lemma trim_closed_end (x b : string) :
  starts_with_space (JS.reverse b) = false -> b <> "" ->
  JS.trim (x +:+ b) = JS.trimStart (x +:+ b).
Proof.
  intros Hb Hn.
  destruct (JS.reverse b) as [|c r] eqn:E.
  - apply reverse_nil in E. contradiction.
  - cbn [starts_with_space] in Hb.
    assert (Eb : b = JS.reverse r +:+ String c "").
    { rewrite <- (reverse_involutive b), E.
      change (String c r) with (String c "" +:+ r).
      now rewrite reverse_append. }
    rewrite Eb, <- append_assoc. now apply trim_end_nonspace.
Qed.

Section HeaderLines.
Context {settings : Settings}.
Import HeaderGenerator.

Lemma indent_spaces (opts : BuildOptions) :
  all_spaces (indent (getPrinter opts)) = true.
Proof.
  unfold getPrinter. cbn [indent]. unfold JS.padEnd.
  cbn [String.append]. apply all_spaces_repeat.
Qed.

Lemma has_line_feed_emit (p : Printer) (text : string) :
  all_spaces (indent p) = true ->
  has_line_feed text = false ->
  has_line_feed (emit p text) = false.
Proof.
  intros Hp Ht. unfold emit.
  rewrite has_line_feed_append, (has_line_feed_spaces _ Hp).
  destruct (trim p); [now apply has_line_feed_trim | exact Ht].
Qed.

(** The lines that one call with arguments prints, when no argument holds
    a line feed. *)
Lemma lines_of_emitted (p : Printer) (l : list string) (rest : string) :
  all_spaces (indent p) = true ->
  (forall text, In text l -> has_line_feed text = false) ->
  lines (flatten
           (map (fun line =>
                   indent p +:+ (if trim p then JS.trim line else line)
                     +:+ JS.nl) l)
         +:+ rest)
  = map (emit p) l ++ lines rest.
Proof.
  intros Hp. induction l as [|x l IH]; intros Hl; [reflexivity|].
  cbn [map flatten app].
  rewrite <- IH by (intros text Ht; apply Hl; now right).
  rewrite <- lines_first
    by (apply has_line_feed_emit; [exact Hp | apply Hl; now left]).
  unfold emit. now rewrite !append_assoc.
Qed.

Lemma lines_of_rendered (p : Printer) (cs : list (list string)) :
  all_spaces (indent p) = true ->
  (forall c text, In c cs -> In text c -> has_line_feed text = false) ->
  lines (flatten (map (render_call p) cs))
  = flat_map (lines_of_print p) cs ++ [""].
Proof.
  intros Hp. induction cs as [|c cs IH]; intros H; [reflexivity|].
  cbn [map flatten flat_map]. rewrite <- app_assoc, <- IH
    by (intros c' text Hc; apply H; now right).
  assert (Hc : forall text, In text c -> has_line_feed text = false)
    by (intros text; apply H; now left).
  destruct c as [|a l]; [reflexivity|].
  now apply lines_of_emitted.
Qed.

(** The lines of the header, when no text given to the printer holds a
    line feed: those of each call, in order, and the empty line behind the
    last line feed. *)
Lemma lines_html (opts : BuildOptions) (pwa : PWA) :
  (forall text, In text (printed opts pwa) -> has_line_feed text = false) ->
  lines (html opts pwa)
  = flat_map (lines_of_print (getPrinter opts)) (calls opts pwa) ++ [""].
Proof.
  intros H. rewrite html_render. apply lines_of_rendered.
  - apply indent_spaces.
  - intros c text Hc Ht. apply H. unfold printed. apply in_concat. eauto.
Qed.

Lemma filter_lines_of_print (f : string -> bool) (p : Printer)
      (cs : list (list string)) :
  f "" = false ->
  filter f (flat_map (lines_of_print p) cs ++ [""])
  = filter f (map (emit p) (concat cs)).
Proof.
  intros Hf. rewrite filter_app. cbn [filter]. rewrite Hf, app_nil_r.
  induction cs as [|c cs IH]; [reflexivity|].
  cbn [flat_map concat]. rewrite map_app, !filter_app, IH.
  destruct c as [|a l]; [|reflexivity].
  cbn [lines_of_print filter map app]. now rewrite Hf.
Qed.

Lemma filter_map_in {A B : Type} (f : B -> bool) (g : A -> B) (h : A -> bool)
      (l : list A) :
  (forall x, In x l -> f (g x) = h x) ->
  filter f (map g l) = map g (filter h l).
Proof.
  induction l as [|a l IH]; intros H; [reflexivity|].
  cbn [map filter]. rewrite (H a) by now left.
  rewrite IH by (intros x Hx; apply H; now right).
  now destruct (h a).
Qed.

(** Every text given to the printer ends with a character that is not
    white space, so trimming it only removes the white space it begins
    with. *)
Lemma printed_trim (opts : BuildOptions) (pwa : PWA) (text : string) :
  In text (printed opts pwa) -> JS.trim text = JS.trimStart text.
Proof.
  intros H. apply printed_cases in H.
  destruct H as [H|[(d & _ & ->)|[(d & _ & H)|[_ H]]]].
  - unfold fixed_lines, themeColorTag, titleTag, titleMeta, capableMeta,
      statusBarMeta in H. cbn [In] in H.
    repeat (destruct H as [<-|H];
            [rewrite <- ?append_assoc;
             (apply trim_closed_end; [reflexivity|discriminate])
             || reflexivity|]).
    destruct H.
  - unfold iconLink. cbv zeta. rewrite <- !append_assoc.
    apply trim_closed_end; [reflexivity|discriminate].
  - unfold splashscreenLink in H. cbv zeta in H. cbn [In] in H.
    destruct H as [<-|[<-|[<-|[]]]].
    + reflexivity.
    + rewrite <- !append_assoc.
      apply trim_closed_end; [reflexivity|discriminate].
    + rewrite <- !append_assoc.
      apply trim_closed_end; [reflexivity|discriminate].
  - unfold bannerStylesheet, bannerScript in H. cbn [In] in H.
    destruct H as [<-|[<-|[]]]; rewrite <- !append_assoc;
      (apply trim_closed_end; [reflexivity|discriminate]).
Qed.

Lemma trimStart_emit (opts : BuildOptions) (pwa : PWA) (text : string) :
  In text (printed opts pwa) ->
  JS.trimStart (emit (getPrinter opts) text) = JS.trimStart text.
Proof.
  intros H. unfold emit.
  rewrite (trimStart_spaces _ _ (indent_spaces opts)).
  destruct (trim (getPrinter opts)); [|reflexivity].
  now rewrite (printed_trim opts pwa text H), trimStart_idem.
Qed.

End HeaderLines.

Section HeaderLinks.
Context {settings : Settings}.
Import HeaderGenerator.

Lemma iconLink_trim (d : Def.t) : JS.trim (iconLink d) = iconLink d.
Proof.
  transitivity (JS.trimStart (iconLink d)); [|reflexivity].
  unfold iconLink. cbv zeta. rewrite <- !append_assoc.
  apply trim_closed_end; [reflexivity|discriminate].
Qed.

Lemma iconLink_printed (opts : BuildOptions) (pwa : PWA) (d : Def.t) :
  In d AppIconDefs -> Def.target d = "ios" -> In [iconLink d] (calls opts pwa).
Proof.
  intros Hd Ht. unfold calls. rewrite !in_app_iff. right; left.
  apply in_map_iff. exists d. split; [reflexivity|].
  unfold getIconDefs, IOSAppIconDefs. apply filter_In. split; [exact Hd|].
  now apply String.eqb_eq.
Qed.

(** The texts given to the printer that are apple-touch-icon links. *)
Lemma icon_texts_printed (opts : BuildOptions) (pwa : PWA) :
  filter is_icon_line (printed opts pwa)
  = map iconLink (filter (fun d => Def.target d =? "ios") AppIconDefs).
Proof.
  unfold printed, calls, getIconDefs, getSplashscreenDefs, IOSAppIconDefs,
    IOSSplashscreenDefs.
  rewrite !concat_app, !filter_app.
  set (icons := filter (fun d => Def.target d =? "ios") AppIconDefs).
  set (splashes := filter (fun d => Splash.target d =? "ios") SplashscreenDefs).
  assert (H1 : filter is_icon_line (concat (map (fun d => [iconLink d]) icons))
               = map iconLink icons).
  { induction icons as [|d l IH]; [reflexivity|].
    cbn [map concat app]. cbn [filter].
    change (is_icon_line (iconLink d)) with true. cbv iota.
    now rewrite IH. }
  assert (H2 : filter is_icon_line (concat (map splashscreenLink splashes)) = []).
  { induction splashes as [|d l IH]; [reflexivity|].
    cbn [map concat]. rewrite filter_app, IH. reflexivity. }
  rewrite H1, H2.
  destruct (JS.truthy (showInstallBanner (ios pwa))); cbn; now rewrite app_nil_r.
Qed.

(** The apple-touch-icon lines of the header. *)
Lemma icon_lines_of_header (opts : BuildOptions) (pwa : PWA) :
  (forall text, In text (printed opts pwa) -> has_line_feed text = false) ->
  filter is_icon_line (lines (html opts pwa))
  = map (fun d => indent (getPrinter opts) +:+ iconLink d)
        (filter (fun d => Def.target d =? "ios") AppIconDefs).
Proof.
  intros H.
  rewrite (lines_html opts pwa H), filter_lines_of_print by reflexivity.
  fold (printed opts pwa).
  rewrite (filter_map_in _ _ is_icon_line)
    by (intros x Hx; unfold is_icon_line at 1;
        now rewrite (trimStart_emit opts pwa x Hx)).
  rewrite icon_texts_printed, map_map. apply map_ext. intros d.
  unfold emit. destruct (trim (getPrinter opts)); [|reflexivity].
  now rewrite iconLink_trim.
Qed.

Lemma icon_line_occurs (opts : BuildOptions) (pwa : PWA) (d : Def.t) :
  In d AppIconDefs -> Def.target d = "ios" ->
  occurs_in (indent (getPrinter opts) +:+ iconLink d +:+ JS.nl) (html opts pwa).
Proof.
  intros Hd Ht.
  pose proof (printed_alone_occurs opts pwa _ (iconLink_printed opts pwa d Hd Ht))
    as H.
  cbv zeta in H. rewrite iconLink_trim in H.
  now destruct (trim (getPrinter opts)).
Qed.

(** The [href] line of a startup-image link, as given to the printer. *)
Lemma startup_href_texts_printed (opts : BuildOptions) (pwa : PWA) :
  filter is_startup_href_line (printed opts pwa)
  = map (fun d =>
           JS.q "    href='pwa/splashscreen/"
             +:+ JS.string_of_N (Splash.w d) +:+ "x"
             +:+ JS.string_of_N (Splash.h d) +:+ JS.q ".png'")
        (filter (fun d => Splash.target d =? "ios") SplashscreenDefs).
Proof.
  unfold printed, calls, getIconDefs, getSplashscreenDefs, IOSAppIconDefs,
    IOSSplashscreenDefs.
  rewrite !concat_app, !filter_app.
  set (icons := filter (fun d => Def.target d =? "ios") AppIconDefs).
  set (splashes := filter (fun d => Splash.target d =? "ios") SplashscreenDefs).
  assert (H1 : filter is_startup_href_line
                      (concat (map (fun d => [iconLink d]) icons)) = []).
  { induction icons as [|d l IH]; [reflexivity|].
    cbn [map concat app]. cbn [filter].
    change (is_startup_href_line (iconLink d)) with false. cbv iota. exact IH. }
  assert (H2 : filter is_startup_href_line
                      (concat (map splashscreenLink splashes))
               = map (fun d =>
                        JS.q "    href='pwa/splashscreen/"
                          +:+ JS.string_of_N (Splash.w d) +:+ "x"
                          +:+ JS.string_of_N (Splash.h d) +:+ JS.q ".png'")
                     splashes).
  { induction splashes as [|d l IH]; [reflexivity|].
    cbn [map concat]. rewrite filter_app, IH. reflexivity. }
  rewrite H1, H2.
  destruct (JS.truthy (showInstallBanner (ios pwa))); cbn; now rewrite app_nil_r.
Qed.

Lemma startup_href_trim (w h : string) :
  JS.trim (JS.q "    href='pwa/splashscreen/" +:+ w +:+ "x" +:+ h
             +:+ JS.q ".png'")
  = JS.q "href='pwa/splashscreen/" +:+ w +:+ "x" +:+ h +:+ JS.q ".png'".
Proof.
  transitivity (JS.trimStart (JS.q "    href='pwa/splashscreen/" +:+ w +:+ "x"
                                +:+ h +:+ JS.q ".png'")); [|reflexivity].
  rewrite <- !append_assoc.
  apply trim_closed_end; [reflexivity|discriminate].
Qed.

Lemma render_in_html (opts : BuildOptions) (pwa : PWA) (c : list string)
      (t : string) :
  In c (calls opts pwa) ->
  occurs_in t (render_call (getPrinter opts) c) ->
  occurs_in t (html opts pwa).
Proof.
  intros Hc Ht. rewrite html_render.
  apply occurs_in_flatten with (s := render_call (getPrinter opts) c);
    [now apply in_map | exact Ht].
Qed.

(** X7. The texts given to the printer that are the [href] line of a
    startup-image link are one per definition of the splashscreen table
    whose target is ['ios'], in the order of the table, and none for the
    others; the link is [pwa/splashscreen/{w}x{h}.png], without the target
    of the definition.  The header holds the line of each: the indent and
    the [href], behind four more spaces unless the printer trims; and when
    no text given to the printer holds a line feed, these are all the
    startup-image [href] lines of the header. *)
Theorem X7_startup_images_linked_for_ios_only
        (opts : BuildOptions) (pwa : PWA) :
  filter is_startup_href_line (printed opts pwa)
  = map (fun d =>
           JS.q "    href='pwa/splashscreen/"
             +:+ JS.string_of_N (Splash.w d) +:+ "x"
             +:+ JS.string_of_N (Splash.h d) +:+ JS.q ".png'")
        (filter (fun d => Splash.target d =? "ios") SplashscreenDefs)
  /\ (forall d,
         In d SplashscreenDefs -> Splash.target d = "ios" ->
         occurs_in
           (indent (getPrinter opts)
              +:+ (if trim (getPrinter opts) then "" else "    ")
              +:+ JS.q "href='pwa/splashscreen/"
              +:+ JS.string_of_N (Splash.w d) +:+ "x"
              +:+ JS.string_of_N (Splash.h d) +:+ JS.q ".png'" +:+ JS.nl)
           (html opts pwa))
  /\ ((forall text, In text (printed opts pwa) -> has_line_feed text = false) ->
      filter is_startup_href_line (lines (html opts pwa))
      = map (fun d =>
               indent (getPrinter opts)
                 +:+ (if trim (getPrinter opts) then "" else "    ")
                 +:+ JS.q "href='pwa/splashscreen/"
                 +:+ JS.string_of_N (Splash.w d) +:+ "x"
                 +:+ JS.string_of_N (Splash.h d) +:+ JS.q ".png'")
            (filter (fun d => Splash.target d =? "ios") SplashscreenDefs)).
Proof.
  split; [|split].
  - apply startup_href_texts_printed.
  - intros d Hd Ht.
    apply render_in_html with (c := splashscreenLink d).
    + unfold calls. rewrite !in_app_iff. right; right; right; left.
      apply in_map. unfold getSplashscreenDefs, IOSSplashscreenDefs.
      apply filter_In. split; [exact Hd|]. now apply String.eqb_eq.
    + unfold splashscreenLink, render_call. cbv zeta. cbn [map flatten].
      apply occurs_in_append_l. apply occurs_in_append_r.
      exists "", "". rewrite append_nil_r.
      destruct (trim (getPrinter opts)).
      * rewrite startup_href_trim. now rewrite !append_assoc.
      * now rewrite !append_assoc.
  - intros H.
    rewrite (lines_html opts pwa H), filter_lines_of_print by reflexivity.
    fold (printed opts pwa).
    rewrite (filter_map_in _ _ is_startup_href_line)
      by (intros x Hx; unfold is_startup_href_line at 1;
          now rewrite (trimStart_emit opts pwa x Hx)).
    rewrite startup_href_texts_printed, map_map. apply map_ext. intros d.
    unfold emit. destruct (trim (getPrinter opts)); [|reflexivity].
    now rewrite startup_href_trim.
Qed.

End HeaderLinks.

Section BlankLines.
Context {settings : Settings}.
Import HeaderGenerator.

Lemma printed_text_not_blank (opts : BuildOptions) (pwa : PWA) (text : string) :
  In text (printed opts pwa) -> is_blank (emit (getPrinter opts) text) = false.
Proof.
  intros H. unfold is_blank. rewrite (trimStart_emit opts pwa text H).
  apply String.eqb_neq. rewrite <- (printed_trim opts pwa text H).
  exact (printed_text_trim_nonempty opts pwa text H).
Qed.

Lemma filter_map_none {A B : Type} (f : B -> bool) (g : A -> B) (l : list A) :
  (forall x, In x l -> f (g x) = false) -> filter f (map g l) = [].
Proof.
  induction l as [|a l IH]; intros H; [reflexivity|].
  cbn [map filter]. rewrite (H a) by now left.
  apply IH. intros x Hx. apply H. now right.
Qed.

(** The blank lines that a sequence of calls prints are the empty lines of
    its calls without arguments. *)
Lemma blank_lines_of_calls (p : Printer) (cs : list (list string)) :
  (forall c text, In c cs -> In text c -> is_blank (emit p text) = false) ->
  filter is_blank (flat_map (lines_of_print p) cs)
  = repeat ""
      (length (filter (fun c => match c with [] => true | _ => false end) cs)).
Proof.
  induction cs as [|c cs IH]; intros H; [reflexivity|].
  cbn [flat_map filter]. rewrite filter_app, IH
    by (intros c' text Hc; apply H; now right).
  destruct c as [|a l]; [reflexivity|].
  unfold lines_of_print.
  rewrite filter_map_none by (intros x Hx; apply (H (a :: l)); [now left|exact Hx]).
  reflexivity.
Qed.

(** The calls without arguments of [make]: five, and one more before the
    install banner. *)
Lemma separators_of_make (opts : BuildOptions) (pwa : PWA) :
  length (filter (fun c => match c with [] => true | _ => false end)
                 (calls opts pwa))
  = if JS.truthy (showInstallBanner (ios pwa)) then 6%nat else 5%nat.
Proof.
  unfold calls. rewrite !filter_app, !length_app.
  assert (H1 : forall l : list Def.t,
             filter (fun c : list string => match c with [] => true | _ => false end)
                    (map (fun d => [iconLink d]) l) = []).
  { induction l as [|d l IH]; [reflexivity|exact IH]. }
  assert (H2 : forall l : list Splash.t,
             filter (fun c : list string => match c with [] => true | _ => false end)
                    (map splashscreenLink l) = []).
  { induction l as [|d l IH]; [reflexivity|exact IH]. }
  rewrite H1, H2.
  now destruct (JS.truthy (showInstallBanner (ios pwa))).
Qed.

Lemma blank_lines_of_header (opts : BuildOptions) (pwa : PWA) :
  (forall text, In text (printed opts pwa) -> has_line_feed text = false) ->
  filter is_blank (lines (html opts pwa))
  = repeat "" (if JS.truthy (showInstallBanner (ios pwa)) then 7 else 6)%nat.
Proof.
  intros H. rewrite (lines_html opts pwa H), filter_app.
  rewrite blank_lines_of_calls.
  - rewrite separators_of_make.
    now destruct (JS.truthy (showInstallBanner (ios pwa))).
  - intros c text Hc Ht. apply printed_text_not_blank with (pwa := pwa).
    unfold printed. apply in_concat. eauto.
Qed.

(** C10, as amended.  Whatever the indent size, missing or not, a call of
    the printer without arguments appends the line feed and nothing else,
    one character.  When no text given to the printer holds a line feed,
    the blank lines of the header are those of the five calls without
    arguments of [make], of a sixth when the install banner is shown, and
    the empty piece behind the last line feed; all of them are empty, so
    no blank line of the header holds an indent or any other white
    space. *)
Theorem C10_blank_lines_amended (opts : BuildOptions) (pwa : PWA) :
  (forall result,
      print (getPrinter opts) [] result = result +:+ JS.nl
      /\ String.length (print (getPrinter opts) [] result)
         = S (String.length result))
  /\ ((forall text, In text (printed opts pwa) -> has_line_feed text = false) ->
      filter is_blank (lines (html opts pwa))
      = repeat "" (if JS.truthy (showInstallBanner (ios pwa)) then 7 else 6)%nat
      /\ blank_lines_empty (html opts pwa)).
Proof.
  split.
  - intros result. split; [reflexivity|].
    cbn [print]. rewrite length_append. cbn. lia.
  - intros H. pose proof (blank_lines_of_header opts pwa H) as E.
    split; [exact E|].
    intros line Hin Hb.
    assert (Hf : In line (filter is_blank (lines (html opts pwa))))
      by (apply filter_In; auto).
    rewrite E in Hf. now apply repeat_spec in Hf.
Qed.

End BlankLines.

Section IconTable.
Context {settings : Settings} {path : PathLib} {host : Host}
        {scope : ModuleScope}.
Import HeaderGenerator.

(** C8. The header generator returns the header printed for the manifest
    it loads.  The texts it gives to the printer that are apple-touch-icon
    links are one per definition of the icon table whose target is
    ['ios'], in the order of the table, and no other, and the header holds
    the line of each; when no text given to the printer holds a line feed,
    these are all the apple-touch-icon lines of the header.  The image
    step goes through the whole icon table, unfiltered: what a run writes
    is an initial part of one image per entry of the icon table followed by
    the splashscreens, and a fulfilled run writes an image for every entry
    of the icon table before anything else.  So every icon line of the
    header comes from a definition whose image a fulfilled run writes, and
    as soon as the table has an entry whose target is not ['ios'], the
    header has fewer icon links than the table has entries, all of which
    the image step builds. *)
Theorem C8_icons_built_include_icons_linked
        (headerOpts : BuildOptions) (source : string) (w : World)
        (manifest : Manifest)
        (opts : BuildOptions) (source' target : string) (w' : World) :
  fst (handle Manifest (loadManifest headerOpts source) w) = Ok manifest ->
  outcome (HeaderGenerator.make headerOpts source w)
  = Ok (html headerOpts (pwa manifest))
  /\ filter is_icon_line (printed headerOpts (pwa manifest))
     = map (fun d =>
              JS.q "<link rel='apple-touch-icon' sizes='"
              +:+ JS.string_of_N (Def.w d) +:+ "x" +:+ JS.string_of_N (Def.h d)
              +:+ JS.q "' href='pwa/appicon/"
              +:+ JS.string_of_N (Def.w d) +:+ "x" +:+ JS.string_of_N (Def.h d)
              +:+ JS.q ".png' />")
           (filter (fun d => Def.target d =? "ios") AppIconDefs)
  /\ (forall d,
         In d AppIconDefs -> Def.target d = "ios" ->
         occurs_in
           (indent (getPrinter headerOpts)
              +:+ JS.q "<link rel='apple-touch-icon' sizes='"
              +:+ JS.string_of_N (Def.w d) +:+ "x" +:+ JS.string_of_N (Def.h d)
              +:+ JS.q "' href='pwa/appicon/"
              +:+ JS.string_of_N (Def.w d) +:+ "x" +:+ JS.string_of_N (Def.h d)
              +:+ JS.q ".png' />" +:+ JS.nl)
           (html headerOpts (pwa manifest)))
  /\ ((forall text,
          In text (printed headerOpts (pwa manifest)) ->
          has_line_feed text = false) ->
      filter is_icon_line (lines (html headerOpts (pwa manifest)))
      = map (fun d =>
               indent (getPrinter headerOpts)
                 +:+ JS.q "<link rel='apple-touch-icon' sizes='"
                 +:+ JS.string_of_N (Def.w d) +:+ "x" +:+ JS.string_of_N (Def.h d)
                 +:+ JS.q "' href='pwa/appicon/"
                 +:+ JS.string_of_N (Def.w d) +:+ "x" +:+ JS.string_of_N (Def.h d)
                 +:+ JS.q ".png' />")
            (filter (fun d => Def.target d =? "ios") AppIconDefs))
  /\ initial_part
       (writes (trace (AssetGenerator.make opts source' target w')))
       (map (written_path (Path_join target AssetGenerator.TargetImagePath))
            AppIconDefs
        ++ map (written_path (Path_join target AssetGenerator.TargetImagePath))
               (map Splash.image
                    (filter (fun d => Splash.target d =? "std")
                            SplashscreenDefs))
        ++ map (written_path (Path_join target AssetGenerator.TargetImagePath))
               (map Splash.image
                    (filter (fun d => Splash.target d =? "ios")
                            SplashscreenDefs)))
  /\ (outcome (AssetGenerator.make opts source' target w') = Ok tt ->
      (exists rest,
          writes (trace (AssetGenerator.make opts source' target w'))
          = map (written_path (Path_join target AssetGenerator.TargetImagePath))
                AppIconDefs
            ++ rest)
      /\ (forall d,
             In d AppIconDefs ->
             In (written_path
                   (Path_join target AssetGenerator.TargetImagePath) d)
                (writes (trace (AssetGenerator.make opts source' target w'))))
      /\ ((forall text,
              In text (printed headerOpts (pwa manifest)) ->
              has_line_feed text = false) ->
          forall line,
            In line (lines (html headerOpts (pwa manifest))) ->
            is_icon_line line = true ->
            exists d,
              In d AppIconDefs
              /\ Def.target d = "ios"
              /\ line
                 = indent (getPrinter headerOpts)
                     +:+ JS.q "<link rel='apple-touch-icon' sizes='"
                 +:+ JS.string_of_N (Def.w d) +:+ "x" +:+ JS.string_of_N (Def.h d)
                 +:+ JS.q "' href='pwa/appicon/"
                 +:+ JS.string_of_N (Def.w d) +:+ "x" +:+ JS.string_of_N (Def.h d)
                 +:+ JS.q ".png' />"
              /\ In (written_path
                       (Path_join target AssetGenerator.TargetImagePath) d)
                    (writes (trace (AssetGenerator.make opts source' target
                                      w')))))
  /\ (forall d,
         In d AppIconDefs -> Def.target d <> "ios" ->
         (length (filter is_icon_line (printed headerOpts (pwa manifest)))
          < length AppIconDefs)%nat
         /\ ((forall text,
                 In text (printed headerOpts (pwa manifest)) ->
                 has_line_feed text = false) ->
             (length (filter is_icon_line
                             (lines (html headerOpts (pwa manifest))))
              < length AppIconDefs)%nat)).
Proof.
  intros Hload.
  pose proof (icon_texts_printed headerOpts (pwa manifest)) as Htexts.
  pose proof (icon_lines_of_header headerOpts (pwa manifest)) as Hlines.
  split; [|split; [|split; [|split; [|split; [|split]]]]].
  - rewrite header_make_run.
    destruct (handle Manifest (loadManifest headerOpts source) w) as [[m|e] w1];
      cbn [fst] in Hload; [|discriminate Hload].
    now injection Hload as ->.
  - exact Htexts.
  - intros d Hd Ht.
    pose proof (icon_line_occurs headerOpts (pwa manifest) d Hd Ht) as H.
    unfold iconLink in H. cbv zeta in H. now rewrite !append_assoc in H.
  - exact Hlines.
  - apply make_writes_initial.
  - intros Hrun.
    assert (Hw : forall d,
               In d AppIconDefs ->
               In (written_path
                     (Path_join target AssetGenerator.TargetImagePath) d)
                  (writes (trace (AssetGenerator.make opts source' target w')))).
    { intros d Hd. rewrite (make_writes opts source' target w' Hrun).
      apply in_app_iff. left. now apply in_map. }
    split; [|split].
    + rewrite (make_writes opts source' target w' Hrun). eauto.
    + exact Hw.
    + intros Hlf line Hin Hicon.
      assert (Hf : In line (filter is_icon_line
                                   (lines (html headerOpts (pwa manifest)))))
        by (apply filter_In; auto).
      rewrite (Hlines Hlf) in Hf. apply in_map_iff in Hf as (d & <- & Hd).
      apply filter_In in Hd as [Hd Ht]. apply String.eqb_eq in Ht.
      exists d. auto.
  - intros d Hd Ht.
    assert (Hlt : (length (filter (fun d => (Def.target d =? "ios")%string)
                                  AppIconDefs)
                   < length AppIconDefs)%nat).
    { apply filter_shorter with (x := d); [exact Hd|].
      now apply String.eqb_neq. }
    split.
    + rewrite Htexts, length_map. exact Hlt.
    + intros Hlf. rewrite (Hlines Hlf), length_map. exact Hlt.
Qed.

End IconTable.

(* ================================================================== *)
(** ** Where a tag can occur in the header *)

Lemma prefix_split (t s : string) :
  String.prefix t s = true -> exists r, s = t +:+ r.
Proof.
  revert s. induction t as [|a t IH]; intros s H; [now exists s|].
  destruct s as [|b s]; [discriminate H|].
  cbn [String.prefix] in H. destruct (ascii_dec a b) as [->|]; [|discriminate H].
  destruct (IH s H) as (r & ->). now exists r.
Qed.

Lemma prefix_append (t r : string) : String.prefix t (t +:+ r) = true.
Proof.
  induction t as [|a t IH]; [now destruct r|].
  cbn [String.append String.prefix].
  destruct (ascii_dec a a); [exact IH | congruence].
Qed.

Lemma occursb_unfold (t s : string) :
  occursb t s
  = String.prefix t s
    || match s with
       | String _ s' => occursb t s'
       | EmptyString => false
       end.
Proof.
  now destruct s.
Qed.

Lemma occursb_sound (t s : string) : occursb t s = true -> occurs_in t s.
Proof.
  induction s as [|c s IH]; rewrite occursb_unfold; intros H;
    apply orb_true_iff in H as [H|H].
  - apply prefix_split in H as (r & ->). now exists "", r.
  - discriminate H.
  - apply prefix_split in H as (r & ->). now exists "", r.
  - destruct (IH H) as (b & a & ->). now exists (String c b), a.
Qed.

Lemma occursb_complete (t s : string) : occurs_in t s -> occursb t s = true.
Proof.
  intros (b & a & ->). induction b as [|c b IH].
  - cbn [String.append]. rewrite occursb_unfold, prefix_append. reflexivity.
  - cbn [String.append occursb]. rewrite IH. apply orb_true_r.
Qed.

Lemma occurs_in_head (k r s : string) : occurs_in (k +:+ r) s -> occurs_in k s.
Proof.
  intros (b & a & ->). exists b, (r +:+ a). now rewrite append_assoc.
Qed.

Lemma safe_app (t a b : string) : safe t a -> safe t b -> safe t (a +:+ b).
Proof.
  intros Ha Hb rest H. rewrite append_assoc. now apply Ha, Hb.
Qed.

Lemma safe_flatten (t : string) (l : list string) :
  (forall s, In s l -> safe t s) -> safe t (flatten l).
Proof.
  induction l as [|x l IH]; intros H; [now intros rest Hr|].
  cbn [flatten]. apply safe_app; [apply H; now left|].
  apply IH. intros s Hs. apply H. now right.
Qed.

(** A tag does not begin inside a text that holds no ['<']. *)
Lemma safe_plain (k v : string) :
  has_lt v = false -> safe (String "<" k) v.
Proof.
  induction v as [|c v IH]; intros H rest Hr; [exact Hr|].
  cbn [has_lt] in H. apply orb_false_iff in H as [Hc Hv].
  cbn [String.append occursb]. rewrite (IH Hv rest Hr), orb_false_r.
  cbn [String.prefix].
  destruct (ascii_dec "<" c) as [<-|]; [discriminate Hc | reflexivity].
Qed.

Lemma safe_not_occurring (t s : string) :
  t <> "" -> safe t s -> ~ occurs_in t s.
Proof.
  intros Ht Hs Ho. apply occursb_complete in Ho.
  assert (E : occursb t "" = false) by (destruct t; [congruence|reflexivity]).
  specialize (Hs "" E). rewrite append_nil_r in Hs. congruence.
Qed.

Lemma has_lt_string_of_uint (d : Decimal.uint) :
  has_lt (NilEmpty.string_of_uint d) = false.
Proof.
  induction d; cbn; auto.
Qed.

Lemma has_lt_decimal (m : Z) : has_lt (JS.decimal m) = false.
Proof.
  unfold JS.decimal, NilZero.string_of_uint.
  destruct (N.to_uint (Z.to_N m)); try reflexivity; apply has_lt_string_of_uint.
Qed.

Lemma has_lt_chars (s : string) :
  has_lt s = false <-> Forall (fun c => Ascii.eqb c "<" = false)
                              (list_ascii_of_string s).
Proof.
  induction s as [|c s IH]; cbn [has_lt list_ascii_of_string].
  - split; [constructor | reflexivity].
  - rewrite orb_false_iff, IH. split.
    + intros [Hc Hs]. now constructor.
    + intros H. inversion H. auto.
Qed.

Lemma strip_zeros_chars (P : ascii -> Prop) (l : list ascii) :
  Forall P l -> Forall P (JS.strip_zeros l).
Proof.
  induction l as [|c l IH]; intros H; [constructor|].
  cbn [JS.strip_zeros]. destruct (Ascii.eqb c "0"); [|exact H].
  inversion H. auto.
Qed.

Lemma has_lt_print_decimal (c : Z) : has_lt (JS.print_decimal c) = false.
Proof.
  unfold JS.print_decimal. cbv zeta.
  destruct (String.length (JS.decimal c) <=? 21)%nat; [apply has_lt_decimal|].
  assert (H : Forall (fun c => Ascii.eqb c "<" = false)
                     (rev (JS.strip_zeros
                             (rev (list_ascii_of_string (JS.decimal c)))))).
  { apply Forall_rev, strip_zeros_chars, Forall_rev, has_lt_chars,
      has_lt_decimal. }
  destruct (rev (JS.strip_zeros (rev (list_ascii_of_string (JS.decimal c)))))
    as [|d [|d' ds]]; [apply has_lt_decimal| |].
  - inversion H as [|? ? Hd _]. subst.
    cbn [String.append has_lt]. rewrite Hd. cbn. apply has_lt_decimal.
  - inversion H as [|? ? Hd Hds]. subst.
    cbn [String.append has_lt]. rewrite Hd. cbn [orb Ascii.eqb].
    assert (E : has_lt (string_of_list_ascii (d' :: ds)) = false)
      by (apply has_lt_chars; now rewrite list_ascii_of_string_of_list_ascii).
    revert E. generalize (string_of_list_ascii (d' :: ds)). intros s E.
    induction s as [|x s IH]; [cbn; apply has_lt_decimal|].
    cbn [has_lt] in E. apply orb_false_iff in E as [Hx Hs].
    cbn [String.append has_lt]. rewrite Hx. now apply IH.
Qed.

Lemma has_lt_string_of_Z (n : Z) : has_lt (JS.string_of_Z n) = false.
Proof.
  assert (H : forall m, has_lt (JS.Number_toString_pos m) = false).
  { intros m. unfold JS.Number_toString_pos. cbv zeta.
    destruct (2 ^ 1024 <=? JS.round_double m)%Z;
      [reflexivity | apply has_lt_print_decimal]. }
  destruct n as [|p|p]; [reflexivity | apply H |].
  cbn [JS.string_of_Z String.append has_lt]. apply H.
Qed.

Lemma has_lt_string_of_N (n : N) : has_lt (JS.string_of_N n) = false.
Proof.
  apply has_lt_string_of_Z.
Qed.

Section BannerTags.
Context {settings : Settings}.
Import HeaderGenerator.

Lemma getStatusBarStyle_cases (pwa : PWA) :
  getStatusBarStyle pwa = JS.Str "default"
  \/ getStatusBarStyle pwa = JS.Str "black"
  \/ getStatusBarStyle pwa = JS.Str "black-translucent".
Proof.
  unfold getStatusBarStyle.
  destruct (statusBarStyle (ios pwa)) as [| |b|n|s]; cbn [JS.strict_eq_str orb];
    try (destruct (JS.loose_eq_str (display pwa) "fullscreen"); tauto).
  destruct (String.eqb_spec s "default") as [->|_]; [tauto|].
  destruct (String.eqb_spec s "black") as [->|_]; [tauto|].
  destruct (String.eqb_spec s "black-translucent") as [->|_]; [tauto|].
  cbn [orb]. destruct (JS.loose_eq_str (display pwa) "fullscreen"); tauto.
Qed.

Ltac safe_pieces :=
  repeat (apply safe_app);
  first [ apply safe_plain; first [assumption | reflexivity
                                  | apply has_lt_string_of_N]
        | intros ?rest ?H; exact H ].

(** With the default options and no install banner, nothing in the header
    begins as a stylesheet link or as a script tag does, when the texts of
    the manifest hold no ['<']. *)
Lemma header_without_banner_safe (k : string) (pwa : PWA) :
  k = JS.q "link rel='s" \/ k = "s" ->
  has_lt (JS.to_string (name pwa)) = false ->
  has_lt (JS.to_string (short_name pwa)) = false ->
  has_lt (JS.to_string (background_color pwa)) = false ->
  JS.truthy (showInstallBanner (ios pwa)) = false ->
  safe (String "<" k) (html {| indentSize := None |} pwa).
Proof.
  intros Hk Hn Hs Hb Hf. rewrite html_render. unfold calls.
  rewrite Hf, app_nil_r.
  apply safe_flatten. intros s Hin. apply in_map_iff in Hin as (c & <- & Hc).
  rewrite !in_app_iff in Hc. cbn [In] in Hc.
  assert (Hcap : has_lt (getWebAppCapable pwa) = false).
  { unfold getWebAppCapable.
    now destruct (JS.loose_eq_str (display pwa) "fullscreen"). }
  assert (Hstyle : has_lt (JS.to_string (getStatusBarStyle pwa)) = false).
  { destruct (getStatusBarStyle_cases pwa) as [->|[->| ->]]; reflexivity. }
  destruct Hc as [Hc|[Hc|[Hc|[Hc|Hc]]]].
  - repeat (destruct Hc as [<-|Hc];
            [rewrite ?render_blank, ?render_single, ?default_indent,
               ?default_trim;
             unfold themeColorTag, titleTag;
             destruct Hk as [-> | ->]; safe_pieces|]).
    destruct Hc.
  - apply in_map_iff in Hc as (d & <- & _).
    rewrite render_single, default_indent, default_trim. unfold iconLink.
    cbv zeta. destruct Hk as [-> | ->]; safe_pieces.
  - destruct Hc as [<-|[]]. rewrite render_blank.
    destruct Hk as [-> | ->]; safe_pieces.
  - apply in_map_iff in Hc as (d & <- & _).
    unfold splashscreenLink, render_call. cbv zeta. cbn [map flatten].
    rewrite default_indent, default_trim.
    destruct Hk as [-> | ->]; safe_pieces.
  - repeat (destruct Hc as [<-|Hc];
            [rewrite ?render_blank, ?render_single, ?default_indent,
               ?default_trim;
             unfold titleMeta, capableMeta, statusBarMeta;
             destruct Hk as [-> | ->]; safe_pieces|]).
    destruct Hc.
Qed.

(** C5, as amended.  With the default build options: when
    [pwa.ios.showInstallBanner] is truthy the header holds the
    install-banner stylesheet link and the install-banner script tag, each
    on its own four-space indented line, one after the other; when it is
    not truthy the header ends with the status-bar-style meta line and,
    provided the name, the short name and the background colour of the
    manifest hold no ['<'], neither tag occurs anywhere in the header.  So,
    for such a manifest, each tag occurs in the header if and only if
    [pwa.ios.showInstallBanner] is truthy. *)
Theorem C5_install_banner_iff_amended (pwa : PWA) :
  (JS.truthy (showInstallBanner (ios pwa)) = true ->
   occurs_in
     ("    " +:+ JS.q "<link rel='stylesheet' href='" +:+ InstallBannerCSSURL
        +:+ JS.q "' />" +:+ JS.nl
        +:+ "    " +:+ JS.q "<script src='" +:+ InstallBannerJSURL
        +:+ JS.q "'></script>" +:+ JS.nl)
     (html {| indentSize := None |} pwa))
  /\ (JS.truthy (showInstallBanner (ios pwa)) = false ->
      exists before,
        html {| indentSize := None |} pwa
        = before +:+ "    "
            +:+ JS.q "<meta name='apple-mobile-web-app-status-bar-style' content='"
            +:+ JS.to_string (getStatusBarStyle pwa) +:+ JS.q "' />" +:+ JS.nl)
  /\ (has_lt (JS.to_string (name pwa)) = false ->
      has_lt (JS.to_string (short_name pwa)) = false ->
      has_lt (JS.to_string (background_color pwa)) = false ->
      (occurs_in
         (JS.q "<link rel='stylesheet' href='" +:+ InstallBannerCSSURL
            +:+ JS.q "' />")
         (html {| indentSize := None |} pwa)
       <-> JS.truthy (showInstallBanner (ios pwa)) = true)
      /\ (occurs_in
            (JS.q "<script src='" +:+ InstallBannerJSURL +:+ JS.q "'></script>")
            (html {| indentSize := None |} pwa)
          <-> JS.truthy (showInstallBanner (ios pwa)) = true)).
Proof.
  assert (Hshown : JS.truthy (showInstallBanner (ios pwa)) = true ->
            occurs_in
              ("    " +:+ JS.q "<link rel='stylesheet' href='"
                 +:+ InstallBannerCSSURL +:+ JS.q "' />" +:+ JS.nl
                 +:+ "    " +:+ JS.q "<script src='" +:+ InstallBannerJSURL
                 +:+ JS.q "'></script>" +:+ JS.nl)
              (html {| indentSize := None |} pwa)).
  { intros Ht. rewrite html_render. unfold calls. rewrite Ht.
    rewrite !map_app, !flatten_app.
    do 5 apply occurs_in_append_l.
    exists JS.nl, "". cbn [map flatten].
    rewrite render_blank, !render_single, default_indent, default_trim.
    unfold bannerStylesheet, bannerScript.
    now rewrite !append_assoc, !append_nil_r. }
  split; [exact Hshown|split].
  - intros Ht. rewrite html_render. unfold calls. rewrite Ht.
    rewrite !map_app, !flatten_app.
    do 4 apply suffix_append_l.
    exists (JS.nl +:+ "    " +:+ titleMeta pwa +:+ JS.nl
              +:+ "    " +:+ capableMeta pwa +:+ JS.nl).
    cbn [map flatten].
    rewrite render_blank, !render_single, default_indent, default_trim.
    unfold statusBarMeta.
    now rewrite !append_assoc, !append_nil_r.
  - intros Hn Hs Hb. split; split.
    + intros Ho.
      destruct (JS.truthy (showInstallBanner (ios pwa))) eqn:Ht;
        [reflexivity|].
      exfalso.
      apply (safe_not_occurring (String "<" (JS.q "link rel='s"))
               (html {| indentSize := None |} pwa)); [discriminate| |].
      * apply header_without_banner_safe; auto.
      * apply occurs_in_head
          with (r := JS.q "tylesheet' href='" +:+ InstallBannerCSSURL
                       +:+ JS.q "' />").
        exact Ho.
    + intros Ht. destruct (Hshown Ht) as (b & a & E).
      exists (b +:+ "    "),
        (JS.nl +:+ "    " +:+ JS.q "<script src='" +:+ InstallBannerJSURL
           +:+ JS.q "'></script>" +:+ JS.nl +:+ a).
      rewrite E. now rewrite !append_assoc.
    + intros Ho.
      destruct (JS.truthy (showInstallBanner (ios pwa))) eqn:Ht;
        [reflexivity|].
      exfalso.
      apply (safe_not_occurring "<s" (html {| indentSize := None |} pwa));
        [discriminate| |].
      * apply (header_without_banner_safe "s"); auto.
      * apply occurs_in_head
          with (r := JS.q "cript src='" +:+ InstallBannerJSURL
                       +:+ JS.q "'></script>").
        exact Ho.
    + intros Ht. destruct (Hshown Ht) as (b & a & E).
      exists (b +:+ "    " +:+ JS.q "<link rel='stylesheet' href='"
                +:+ InstallBannerCSSURL +:+ JS.q "' />" +:+ JS.nl +:+ "    "),
        (JS.nl +:+ a).
      rewrite E. now rewrite !append_assoc.
Qed.

End BannerTags.

(* ================================================================== *)
(** ** Further properties of the image step *)

Section AssetMore.
Context {settings : Settings} {path : PathLib} {host : Host}
        {scope : ModuleScope}.
Import AssetGenerator.

Lemma trace_bind_eq {A B : Type} (m : M A) (k : A -> M B) (w : World) :
  trace (bind m k w)
  = trace (m w)
    ++ match outcome (m w) with
       | Ok a => trace (k a (world_after (m w)))
       | Rejected _ => []
       end.
Proof.
  destruct (m w) as [[[a|e] w1] t1] eqn:E.
  - rewrite (bind_Ok m k w w1 a t1 E), !trace_of. reflexivity.
  - rewrite (bind_Rejected m k w w1 e t1 E), !trace_of. cbn.
    now rewrite app_nil_r.
Qed.

Lemma outcome_bind_eq {A B : Type} (m : M A) (k : A -> M B) (w : World) :
  outcome (bind m k w)
  = match outcome (m w) with
    | Ok a => outcome (k a (world_after (m w)))
    | Rejected e => Rejected e
    end.
Proof.
  destruct (m w) as [[[a|e] w1] t1] eqn:E.
  - now rewrite (bind_Ok m k w w1 a t1 E).
  - now rewrite (bind_Rejected m k w w1 e t1 E).
Qed.

Lemma Forall_trace_bind {A B : Type} (P : event -> Prop)
      (m : M A) (k : A -> M B) (w : World) :
  Forall P (trace (m w)) ->
  (forall a w1, Forall P (trace (k a w1))) ->
  Forall P (trace (bind m k w)).
Proof.
  intros Hm Hk. rewrite trace_bind_eq. apply Forall_app. split; [exact Hm|].
  destruct (outcome (m w)); [apply Hk | constructor].
Qed.

(** X9. The base path given to file-match resolution has no effect: the
    outcome, the probes made and the state left are the same for any two
    base paths. *)
Theorem X9_findFileMatch_never_reads_basePath
        (basePath basePath' name : string) (exts : list string)
        (defaultPath : option string) (w : World) :
  findFileMatch basePath name exts defaultPath w
  = findFileMatch basePath' name exts defaultPath w.
Proof.
  apply findFileMatch_ignores_basePath.
Qed.

(** X10. File-match resolution probes the candidates in their order, each
    extension of the list and then the default path when it is not empty,
    skips none and probes none twice, and stops at the first probe that
    does not answer false.  Either every candidate was probed and answered
    false, and nothing is returned; or the probes stop at a candidate that
    answered true, which is returned, or whose probe was rejected, which
    rejects the resolution; the candidates before it answered false and
    those after it are not probed.  So the resolution makes at most one
    probe more than there are extensions. *)
Theorem X10_findFileMatch_probes_in_order_and_stops
        (basePath name : string) (exts : list string)
        (defaultPath : option string) (w : World) :
  (exists tried,
      (tried = candidates name exts defaultPath
       /\ trace (findFileMatch basePath name exts defaultPath w)
          = map (fun p => EvExists p (Some false)) tried
       /\ outcome (findFileMatch basePath name exts defaultPath w) = Ok None)
      \/ (exists p rest answer,
             candidates name exts defaultPath = tried ++ p :: rest
             /\ trace (findFileMatch basePath name exts defaultPath w)
                = map (fun p => EvExists p (Some false)) tried
                  ++ [EvExists p answer]
             /\ ((answer = Some true
                  /\ outcome (findFileMatch basePath name exts defaultPath w)
                     = Ok (Some p))
                 \/ (answer = None
                     /\ exists reason,
                         outcome (findFileMatch basePath name exts defaultPath w)
                         = Rejected reason))))
  /\ (length (trace (findFileMatch basePath name exts defaultPath w))
      <= length exts + 1)%nat.
Proof.
  revert w. induction exts as [|ext exts IH]; intros w.
  - rewrite findFileMatch_nil. unfold candidates. cbn [map app length].
    destruct defaultPath as [d|].
    + destruct (d =? "").
      * split; [|cbn; lia]. exists []. left. now repeat split.
      * destruct (handle bool (exists_ d) w) as [[[|]|r] w1];
          (split; [|cbn; lia]).
        -- exists []. right. exists d, [], (Some true).
           split; [reflexivity|]. split; [reflexivity|]. left. now split.
        -- exists [d]. left. now repeat split.
        -- exists []. right. exists d, [], None.
           split; [reflexivity|]. split; [reflexivity|]. right.
           split; [reflexivity|]. now exists r.
    + split; [|cbn; lia]. exists []. left. now repeat split.
  - rewrite findFileMatch_cons.
    change (candidates name (ext :: exts) defaultPath)
      with ((name +:+ "." +:+ ext) :: candidates name exts defaultPath).
    destruct (handle bool (exists_ (name +:+ "." +:+ ext)) w) as [[[|]|r] w1].
    + split; [|cbn; lia].
      exists []. right.
      exists (name +:+ "." +:+ ext), (candidates name exts defaultPath),
        (Some true).
      split; [reflexivity|]. split; [reflexivity|]. left. now split.
    + destruct (IH w1) as [(tried & H) Hlen]. cbv zeta.
      rewrite outcome_of, trace_of. split; [|cbn [length]; lia].
      exists ((name +:+ "." +:+ ext) :: tried).
      destruct H as [(-> & Ht & Ho)|(p & rest & answer & Hc & Ht & Ho)].
      * left. rewrite Ht. now repeat split.
      * right. exists p, rest, answer. rewrite Hc, Ht.
        split; [reflexivity|]. split; [reflexivity|]. exact Ho.
    + split; [|cbn; lia].
      exists []. right.
      exists (name +:+ "." +:+ ext), (candidates name exts defaultPath), None.
      split; [reflexivity|]. split; [reflexivity|]. right.
           split; [reflexivity|]. now exists r.
Qed.

(** X11. File-match resolution is rejected exactly when one of its probes
    is; the rejected probe is the last event of the call: no other
    extension and no default path is tried after it. *)
Theorem X11_findFileMatch_rejected_with_its_probe
        (basePath name : string) (exts : list string)
        (defaultPath : option string) (w : World) :
  ((exists reason,
       outcome (findFileMatch basePath name exts defaultPath w) = Rejected reason)
   <-> exists p,
        In (EvExists p None)
           (trace (findFileMatch basePath name exts defaultPath w)))
  /\ (forall p,
         In (EvExists p None)
            (trace (findFileMatch basePath name exts defaultPath w)) ->
         exists before,
           trace (findFileMatch basePath name exts defaultPath w)
           = before ++ [EvExists p None]).
Proof.
  revert w. induction exts as [|ext exts IH]; intros w.
  - rewrite findFileMatch_nil. destruct defaultPath as [d|].
    + destruct (d =? "").
      * cbn. split; [split|]; [intros (r & H); discriminate H
                              |intros (p & []) |intros p []].
      * destruct (handle bool (exists_ d) w) as [[[|]|r] w1]; cbn.
        -- split; [split|]; [intros (r & H); discriminate H
                            |intros (p & [H|[]]); discriminate H
                            |intros p [H|[]]; discriminate H].
        -- split; [split|]; [intros (r & H); discriminate H
                            |intros (p & [H|[]]); discriminate H
                            |intros p [H|[]]; discriminate H].
        -- split; [split|]; [intros _; exists d; now left
                            |intros _; now exists r
                            |intros p [[= <-]|[]]; now exists []].
    + cbn. split; [split|]; [intros (r & H); discriminate H
                            |intros (p & []) |intros p []].
  - rewrite findFileMatch_cons.
    destruct (handle bool (exists_ (name +:+ "." +:+ ext)) w) as [[[|]|r] w1].
    + cbn. split; [split|]; [intros (r & H); discriminate H
                            |intros (p & [H|[]]); discriminate H
                            |intros p [H|[]]; discriminate H].
    + destruct (IH w1) as [[H1 H2] H3]. cbv zeta.
      rewrite outcome_of, trace_of. split; [split|].
      * intros H. destruct (H1 H) as (p & Hp). exists p. now right.
      * intros (p & [Hp|Hp]); [discriminate Hp|]. apply H2. now exists p.
      * intros p [Hp|Hp]; [discriminate Hp|].
        destruct (H3 p Hp) as (before & ->).
        now exists (EvExists (name +:+ "." +:+ ext) (Some false) :: before).
    + cbn. split; [split|]; [intros _; eexists; now left
                            |intros _; now exists r
                            |intros p [[= <-]|[]]; now exists []].
Qed.




(** The events of the build of one image. *)
Lemma buildImage_trace (sourcePath : string) (baseImagePath : option string)
      (d : Def.t) (exts : list string) (targetPath : string)
      (bgColor : JS.value) (w : World) :
  trace (buildImage sourcePath baseImagePath d exts targetPath bgColor w)
  = EvEnsureDir (Path_dirname (written_path targetPath d))
      :: match fst (handle unit (ensureDir (Path_dirname
                                              (written_path targetPath d))) w) with
         | Rejected _ => []
         | Ok _ =>
             let r :=
               findFileMatch sourcePath (imagePathOf d) exts None
                 (snd (handle unit (ensureDir (Path_dirname
                                                 (written_path targetPath d))) w))
             in
             trace r
             ++ match outcome r with
                | Ok (Some existing) =>
                    if existing =? ""
                    then [ EvLog (JS.tab +:+ "Scaling "
                                    +:+ JS.to_string (JS.of_path baseImagePath)
                                    +:+ " -> " +:+ written_path targetPath d);
                           EvExec "convert"
                                  (scaleArgs baseImagePath
                                             (written_path targetPath d)
                                             (Def.w d) (Def.h d) bgColor) ]
                    else [ EvLog (JS.tab +:+ "Copying " +:+ existing +:+ " -> "
                                    +:+ written_path targetPath d);
                           EvCp existing (written_path targetPath d) ]
                | Ok None =>
                    [ EvLog (JS.tab +:+ "Scaling "
                               +:+ JS.to_string (JS.of_path baseImagePath)
                               +:+ " -> " +:+ written_path targetPath d);
                      EvExec "convert"
                             (scaleArgs baseImagePath
                                        (written_path targetPath d)
                                        (Def.w d) (Def.h d) bgColor) ]
                | Rejected _ => []
                end
         end.
Proof.
  unfold buildImage, written_path.
  rewrite trace_bind_eq, await_run, trace_of, outcome_of. cbn [app event_of].
  f_equal. unfold world_after. cbn [fst snd].
  destruct (fst (handle unit (ensureDir _) w)); [|reflexivity].
  cbv zeta. rewrite trace_bind_eq. f_equal.
  destruct (outcome (findFileMatch _ _ _ _ _)) as [[e|]|r]; [| |reflexivity].
  - cbn [truthy_path]. destruct (e =? ""); cbn [negb].
    + rewrite trace_bind_eq. cbn [console_log trace outcome world_after fst snd app].
      unfold scaleImage. rewrite await_run. reflexivity.
    + rewrite trace_bind_eq. cbn [console_log trace outcome world_after fst snd app].
      rewrite await_run. reflexivity.
  - cbn [truthy_path].
    rewrite trace_bind_eq. cbn [console_log trace outcome world_after fst snd app].
    unfold scaleImage. rewrite await_run. reflexivity.
Qed.

Lemma probe_in_resolution (basePath name : string) (exts : list string)
      (defaultPath : option string) (w : World) (e : event) :
  In e (trace (findFileMatch basePath name exts defaultPath w)) ->
  exists p a, e = EvExists p a.
Proof.
  intros H.
  pose proof (findFileMatch_only_probes basePath name exts defaultPath w) as Hall.
  rewrite Forall_forall in Hall. now apply Hall.
Qed.


(** The kinds of events of the build of images. *)
Lemma buildImage_events (P : event -> Prop)
      (sourcePath : string) (baseImagePath : option string)
      (d : Def.t) (exts : list string) (targetPath : string)
      (bgColor : JS.value) (w : World) :
  (forall p0 a0, P (EvExists p0 a0)) ->
  (forall p0, P (EvEnsureDir p0)) ->
  (forall m, P (EvLog m)) ->
  (forall src, P (EvCp src (written_path targetPath d))) ->
  P (EvExec "convert"
            (scaleArgs baseImagePath (written_path targetPath d)
                       (Def.w d) (Def.h d) bgColor)) ->
  Forall P (trace (buildImage sourcePath baseImagePath d exts targetPath
                              bgColor w)).
Proof.
  intros Hex Hdir Hlog Hcp Hexec. rewrite buildImage_trace.
  constructor; [apply Hdir|].
  destruct (fst (handle unit (ensureDir _) w)); [|constructor].
  cbv zeta. apply Forall_app. split.
  - apply Forall_forall. intros e He.
    apply probe_in_resolution in He as (p0 & a0 & ->). apply Hex.
  - destruct (outcome (findFileMatch _ _ _ _ _)) as [[e|]|r];
      [destruct (e =? "")| |]; repeat constructor; auto.
Qed.

Lemma buildImages_events (P : event -> Prop)
      (sourcePath : string) (baseImagePath : option string)
      (imageDefs : list Def.t) (exts : list string) (targetPath : string)
      (bgColor : JS.value) (w : World) :
  (forall p0 a0, P (EvExists p0 a0)) ->
  (forall p0, P (EvEnsureDir p0)) ->
  (forall m, P (EvLog m)) ->
  (forall src d, In d imageDefs -> P (EvCp src (written_path targetPath d))) ->
  (forall d, In d imageDefs ->
             P (EvExec "convert"
                       (scaleArgs baseImagePath (written_path targetPath d)
                                  (Def.w d) (Def.h d) bgColor))) ->
  Forall P (trace (buildImages sourcePath baseImagePath imageDefs exts
                               targetPath bgColor w)).
Proof.
  intros Hex Hdir Hlog. revert w.
  induction imageDefs as [|d rest IH]; intros w Hcp Hexec; [constructor|].
  cbn [buildImages]. apply Forall_trace_bind.
  - apply buildImage_events; auto.
    + intros src. apply Hcp. now left.
    + apply Hexec. now left.
  - intros _ w1. apply IH.
    + intros src d' Hd'. apply Hcp. now right.
    + intros d' Hd'. apply Hexec. now right.
Qed.

Lemma build_stages_events (P : event -> Prop)
      (source target : string) (bg : JS.value) (w : World) :
  (forall p0 a0, P (EvExists p0 a0)) ->
  (forall p0, P (EvEnsureDir p0)) ->
  (forall m, P (EvLog m)) ->
  (forall src d, In d built_defs ->
                 P (EvCp src (written_path (Path_join target TargetImagePath) d))) ->
  (forall base d, In d built_defs ->
                  P (EvExec "convert"
                            (scaleArgs base
                                       (written_path (Path_join target TargetImagePath) d)
                                       (Def.w d) (Def.h d) bg))) ->
  Forall P (trace (build_stages source target bg w)).
Proof.
  intros Hex Hdir Hlog Hcp Hexec.
  assert (Hprobes : forall b n x dflt w0,
             Forall P (trace (findFileMatch b n x dflt w0))).
  { intros b n x dflt w0. apply Forall_forall. intros e He.
    apply probe_in_resolution in He as (p0 & a0 & ->). apply Hex. }
  assert (Hbuild : forall sp base defs x w0,
             incl defs built_defs ->
             Forall P (trace (buildImages sp base defs x
                                (Path_join target TargetImagePath) bg w0))).
  { intros sp base defs x w0 Hincl. apply buildImages_events; auto. }
  unfold build_stages. cbv zeta.
  apply Forall_trace_bind; [apply Hprobes|]. intros baseAppIconPath w1.
  apply Forall_trace_bind; [repeat constructor; apply Hlog|]. intros _ w2.
  apply Forall_trace_bind.
  { apply Hbuild. unfold built_defs. intros d Hd. apply in_app_iff. now left. }
  intros _ w3.
  apply Forall_trace_bind; [apply Hprobes|]. intros baseStd w4.
  apply Forall_trace_bind; [repeat constructor; apply Hlog|]. intros _ w5.
  apply Forall_trace_bind.
  { apply Hbuild. unfold built_defs. intros d Hd.
    apply in_app_iff. right. apply in_app_iff. now left. }
  intros _ w6.
  apply Forall_trace_bind; [apply Hprobes|]. intros baseIos w7.
  apply Forall_trace_bind; [repeat constructor; apply Hlog|]. intros _ w8.
  apply Hbuild. unfold built_defs. intros d Hd.
  apply in_app_iff. right. apply in_app_iff. now right.
Qed.

Lemma make_stages (opts : BuildOptions) (source target : string) :
  make opts source target
  = (manifest <- await (loadManifest opts source) ;;
     await (rmrf (Path_join target TargetImagePath)) ;;
     build_stages source target (background_color (pwa manifest))).
Proof. reflexivity. Qed.

(** The events of a run, by the answer to the first two calls. *)
Lemma make_trace (opts : BuildOptions) (source target : string) (w : World) :
  trace (make opts source target w)
  = EvLoadManifest opts source
      :: match handle Manifest (loadManifest opts source) w with
         | (Rejected _, _) => []
         | (Ok manifest, w1) =>
             EvRmrf (Path_join target TargetImagePath)
               :: match handle unit (rmrf (Path_join target TargetImagePath)) w1 with
                  | (Rejected _, _) => []
                  | (Ok _, w2) =>
                      trace (build_stages source target
                                          (background_color (pwa manifest)) w2)
                  end
         end.
Proof.
  rewrite make_stages, trace_bind_eq, await_run, trace_of, outcome_of.
  cbn [app event_of]. f_equal. unfold world_after. cbn [fst snd].
  destruct (handle Manifest (loadManifest opts source) w) as [[m|e] w1];
    [|reflexivity].
  cbn [fst snd]. rewrite trace_bind_eq, await_run, trace_of, outcome_of.
  cbn [app event_of]. f_equal. unfold world_after. cbn [fst snd].
  now destruct (handle unit (rmrf (Path_join target TargetImagePath)) w1)
    as [[u|e] w2].
Qed.

(** X13. A run of the image step loads the manifest once and removes once:
    after the removal of the target image directory no call removes
    anything and the manifest is not loaded again; what follows only
    probes, creates directories, copies, scales and logs. *)
Theorem X13_nothing_removed_or_loaded_again
        (opts : BuildOptions) (source target : string) (w : World) :
  trace (make opts source target w) = [EvLoadManifest opts source]
  \/ exists rest,
      trace (make opts source target w)
      = EvLoadManifest opts source
          :: EvRmrf (Path_join target TargetImagePath) :: rest
      /\ Forall (fun e => removes_or_loads e = false) rest.
Proof.
  rewrite make_trace.
  destruct (handle Manifest (loadManifest opts source) w) as [[m|e] w1];
    [right|now left].
  destruct (handle unit (rmrf (Path_join target TargetImagePath)) w1)
    as [[u|e] w2].
  - eexists. split; [reflexivity|].
    apply build_stages_events; reflexivity.
  - exists []. split; [reflexivity|constructor].
Qed.

(** X14. A fulfilled run of the image step writes exactly one file per
    definition it builds from, in the order icons, ['std'] splashscreens,
    ['ios'] splashscreens and, within each, in the order of the table; a
    splashscreen definition with any other target is not built. *)
Theorem X14_fulfilled_run_writes_one_file_per_definition
        (opts : BuildOptions) (source target : string) (w : World) :
  outcome (make opts source target w) = Ok tt ->
  writes (trace (make opts source target w))
  = map (written_path (Path_join target TargetImagePath)) built_defs
  /\ length (writes (trace (make opts source target w)))
     = (length AppIconDefs
        + length (filter (fun d => (Splash.target d =? "std")%string)
                         SplashscreenDefs)
        + length (filter (fun d => (Splash.target d =? "ios")%string)
                         SplashscreenDefs))%nat.
Proof.
  intros Hrun. rewrite (make_writes opts source target w Hrun).
  unfold built_defs. rewrite !map_app. split; [reflexivity|].
  rewrite !length_app, !length_map. lia.
Qed.

Lemma bind_assoc {A B C : Type} (m : M A) (f : A -> M B) (g : B -> M C)
      (w : World) :
  bind (bind m f) g w = bind m (fun a => bind (f a) g) w.
Proof.
  unfold bind.
  destruct (m w) as [[[a|e] w1] t1]; [|reflexivity].
  destruct (f a w1) as [[[b|e] w2] t2]; [|reflexivity].
  destruct (g b w2) as [[r w3] t3]. now rewrite app_assoc.
Qed.

Lemma bind_ext {A B : Type} (m : M A) (k k' : A -> M B) (w : World) :
  (forall a w1, k a w1 = k' a w1) -> bind m k w = bind m k' w.
Proof.
  intros H. unfold bind.
  destruct (m w) as [[[a|e] w1] t1]; [|reflexivity]. now rewrite H.
Qed.

Lemma bind_ret_l {A B : Type} (a : A) (k : A -> M B) (w : World) :
  bind (ret a) k w = k a w.
Proof.
  unfold bind, ret. now destruct (k a w) as [[r w2] t2].
Qed.

(** X15. Building a list of definitions is building its first part and
    then the rest, from the state the first part leaves; and when the
    build of the first part is rejected, nothing of the rest is touched:
    the run is the run of the first part. *)
Theorem X15_buildImages_in_two_parts
        (sourcePath : string) (baseImagePath : option string)
        (first rest : list Def.t) (exts : list string) (targetPath : string)
        (bgColor : JS.value) (w : World) :
  buildImages sourcePath baseImagePath (first ++ rest) exts targetPath bgColor w
  = (buildImages sourcePath baseImagePath first exts targetPath bgColor ;;
     buildImages sourcePath baseImagePath rest exts targetPath bgColor) w
  /\ (forall reason,
         outcome (buildImages sourcePath baseImagePath first exts targetPath
                              bgColor w) = Rejected reason ->
         buildImages sourcePath baseImagePath (first ++ rest) exts targetPath
                     bgColor w
         = buildImages sourcePath baseImagePath first exts targetPath bgColor w).
Proof.
  assert (Hsplit : forall w0,
             buildImages sourcePath baseImagePath (first ++ rest) exts
                         targetPath bgColor w0
             = (buildImages sourcePath baseImagePath first exts targetPath
                            bgColor ;;
                buildImages sourcePath baseImagePath rest exts targetPath
                            bgColor) w0).
  { induction first as [|d first IH]; intros w0.
    - cbn [app buildImages]. now rewrite bind_ret_l.
    - cbn [app buildImages]. rewrite bind_assoc.
      apply bind_ext. intros _ w1. apply IH. }
  split; [apply Hsplit|].
  intros reason H. rewrite Hsplit.
  destruct (buildImages sourcePath baseImagePath first exts targetPath bgColor w)
    as [[r w1] t1] eqn:E.
  cbn in H. subst r. now apply bind_Rejected.
Qed.

(** X16. Every external command a run of the image step executes is
    [convert], for a definition the step builds from and with the argument
    list of [scaleImage]; its background is the background colour of the
    manifest loaded at the beginning of the run, or ['black'] when the
    manifest has none, and its [-resize] and [-extent] sizes are the size of
    the definition. *)
Theorem X16_every_command_scales_with_the_manifest_background
        (opts : BuildOptions) (source target : string) (w : World)
        (cmd : string) (args : list JS.value) :
  In (EvExec cmd args) (trace (make opts source target w)) ->
  exists manifest base d,
    fst (handle Manifest (loadManifest opts source) w) = Ok manifest
    /\ In d built_defs
    /\ cmd = "convert"
    /\ args = scaleArgs base
                        (written_path (Path_join target TargetImagePath) d)
                        (Def.w d) (Def.h d) (background_color (pwa manifest))
    /\ nth 4 args JS.Null
       = match background_color (pwa manifest) with
         | JS.Undefined => JS.Str "black"
         | colour => colour
         end
    /\ nth 2 args JS.Null = JS.Str (size (Def.w d) (Def.h d) +:+ "^")
    /\ nth 10 args JS.Null = JS.Str (size (Def.w d) (Def.h d)).
Proof.
  rewrite make_trace. intros [H|H]; [discriminate H|].
  destruct (handle Manifest (loadManifest opts source) w) as [[m|e] w1];
    [|destruct H].
  destruct H as [H|H]; [discriminate H|].
  destruct (handle unit (rmrf (Path_join target TargetImagePath)) w1)
    as [[u|e] w2]; [|destruct H].
  pose proof (build_stages_events
                (fun e => forall c a, e = EvExec c a ->
                   exists base d,
                     In d built_defs /\ c = "convert"
                     /\ a = scaleArgs base
                              (written_path (Path_join target TargetImagePath) d)
                              (Def.w d) (Def.h d) (background_color (pwa m)))
                source target (background_color (pwa m)) w2) as Hall.
  rewrite Forall_forall in Hall.
  destruct (Hall ltac:(discriminate) ltac:(discriminate) ltac:(discriminate)
                 ltac:(discriminate)
                 ltac:(intros base d Hd c a [= <- <-]; eauto)
                 _ H cmd args eq_refl)
    as (base & d & Hd & -> & ->).
  exists m, base, d. repeat split; try reflexivity; [exact Hd|].
  now destruct (background_color (pwa m)).
Qed.

End AssetMore.

(* ================================================================== *)
(** ** How the generators start and fail *)

Section Starts.
Context {settings : Settings} {path : PathLib} {host : Host}
        {scope : ModuleScope}.

(** X17. The header generator makes one call, the load of the manifest,
    and no call to the file system; it returns the text printed for the
    manifest loaded, and when the load is rejected it is rejected with the
    same reason. *)
Theorem X17_header_generator_only_loads_the_manifest
        (opts : BuildOptions) (source : string) (w : World) :
  trace (HeaderGenerator.make opts source w) = [EvLoadManifest opts source]
  /\ world_after (HeaderGenerator.make opts source w)
     = snd (handle Manifest (loadManifest opts source) w)
  /\ (forall manifest,
         fst (handle Manifest (loadManifest opts source) w) = Ok manifest ->
         outcome (HeaderGenerator.make opts source w)
         = Ok (HeaderGenerator.html opts (pwa manifest)))
  /\ (forall reason,
         fst (handle Manifest (loadManifest opts source) w) = Rejected reason ->
         outcome (HeaderGenerator.make opts source w) = Rejected reason).
Proof.
  rewrite header_make_run.
  destruct (handle Manifest (loadManifest opts source) w) as [[m|e] w1];
    cbn; repeat split; intros x [= <-]; reflexivity.
Qed.

(** X18. The image step stops at a rejected start: when the load of the
    manifest is rejected the run is rejected with the same reason and
    makes no other call; when the removal of the target image directory is
    rejected the run is rejected with that reason, and nothing is probed,
    created, copied or scaled. *)
Theorem X18_image_step_stops_at_a_rejected_start
        (opts : BuildOptions) (source target : string) (w : World) :
  (forall reason w1,
      handle Manifest (loadManifest opts source) w = (Rejected reason, w1) ->
      AssetGenerator.make opts source target w
      = (Rejected reason, w1, [EvLoadManifest opts source]))
  /\ (forall manifest w1 reason w2,
         handle Manifest (loadManifest opts source) w = (Ok manifest, w1) ->
         handle unit (rmrf (Path_join target AssetGenerator.TargetImagePath)) w1
         = (Rejected reason, w2) ->
         AssetGenerator.make opts source target w
         = (Rejected reason, w2,
            [ EvLoadManifest opts source;
              EvRmrf (Path_join target AssetGenerator.TargetImagePath) ])).
Proof.
  split.
  - intros reason w1 E. rewrite make_stages.
    apply bind_Rejected. now rewrite await_run, E.
  - intros m w1 reason w2 E1 E2. rewrite make_stages.
    rewrite (bind_Ok _ _ w w1 m [EvLoadManifest opts source])
      by (now rewrite await_run, E1).
    rewrite (bind_Rejected _ _ w1 w2 reason
               [EvRmrf (Path_join target AssetGenerator.TargetImagePath)])
      by (now rewrite await_run, E2).
    reflexivity.
Qed.

End Starts.

(* ================================================================== *)
(** ** Further runs on the example host *)

(** A boolean [display] is not capable; a full-screen application without
    a status bar style gets ['black-translucent']. *)
Lemma X2_witness :
  HeaderGenerator.getWebAppCapable Demo.pwa_nameless = "no"
  /\ HeaderGenerator.getStatusBarStyle Demo.pwa_banner
     = JS.Str "black-translucent".
Proof.
  split.
  - apply (proj2 (proj1 (proj2 (X2_capable_and_status_bar_agree
                                  Demo.pwa_nameless)))).
    discriminate.
  - apply (proj2 (proj2 (proj2 (X2_capable_and_status_bar_agree
                                  Demo.pwa_banner))
                   ltac:(cbn; intros [H|[H|[H|[]]]]; discriminate H))).
    reflexivity.
Defined.

(** [indentSize = -3]: no indent and no trimming. *)
Lemma X4_witness :
  HeaderGenerator.indent (HeaderGenerator.getPrinter Demo.opts_negative) = ""
  /\ HeaderGenerator.trim (HeaderGenerator.getPrinter Demo.opts_negative)
     = false.
Proof.
  apply (proj2 (proj2 (proj2 (X4_printer_of_options Demo.opts_negative)))
           (-3)%Z eq_refl).
  lia.
Defined.

(** The [href] line of the example startup-image link, trimmed. *)
Lemma X5_witness :
  JS.trim (JS.q "    href='pwa/splashscreen/640x1136.png'") <> ""
  /\ starts_with_space
       (JS.trim (JS.q "    href='pwa/splashscreen/640x1136.png'")) = false
  /\ ends_with_space
       (JS.trim (JS.q "    href='pwa/splashscreen/640x1136.png'")) = false.
Proof.
  apply (proj2 (@X5_indent_zero_prints_trimmed_lines Demo.settings Demo.pwa)
           (JS.q "    href='pwa/splashscreen/640x1136.png'")).
  apply In_by_eqb. vm_compute. reflexivity.
Defined.

(** The header of the manifest without a name. *)
Lemma X6_witness :
  occurs_in ("<title>undefined</title>" +:+ JS.nl)
            (@HeaderGenerator.html Demo.settings Demo.opts Demo.pwa_nameless)
  /\ occurs_in (JS.q "<meta name='apple-mobile-web-app-title' content='null' />"
                  +:+ JS.nl)
               (@HeaderGenerator.html Demo.settings Demo.opts Demo.pwa_nameless).
Proof.
  split.
  - apply (proj1 (proj2 (@X6_missing_fields_are_printed_as_text
                           Demo.settings Demo.opts Demo.pwa_nameless))).
    reflexivity.
  - apply (proj2 (proj2 (proj2 (@X6_missing_fields_are_printed_as_text
                                  Demo.settings Demo.opts Demo.pwa_nameless)))).
    reflexivity.
Defined.

(** When the probe of [appicon.svg] is rejected, so is the resolution. *)
Lemma X11_witness :
  exists reason,
    outcome (@AssetGenerator.findFileMatch
               (Sim.host_denying "appicon.svg" Demo.manifest)
               "site/_pwa" "appicon" ["png"; "svg"]
               (Some "/opt/build-tools/assets/appicon.png") Demo.files)
    = Rejected reason.
Proof.
  apply (proj2 (proj1 (@X11_findFileMatch_rejected_with_its_probe
                         (Sim.host_denying "appicon.svg" Demo.manifest)
                         "site/_pwa" "appicon" ["png"; "svg"]
                         (Some "/opt/build-tools/assets/appicon.png")
                         Demo.files))).
  exists "appicon.svg". vm_compute. right. left. reflexivity.
Defined.


(** The run on the example site writes five files. *)
Lemma X14_witness :
  length (writes (trace (@AssetGenerator.make Demo.settings Posix.lib
                           (Sim.host Demo.manifest) Demo.scope Demo.opts
                           "site" "out" Demo.files)))
  = 5%nat.
Proof.
  apply (proj2 (@X14_fulfilled_run_writes_one_file_per_definition
                  Demo.settings Posix.lib (Sim.host Demo.manifest) Demo.scope
                  Demo.opts "site" "out" Demo.files
                  ltac:(vm_compute; reflexivity))).
Defined.

(** When the probe for the first icon is rejected, the second icon is not
    touched. *)
Lemma X15_witness :
  @AssetGenerator.buildImages Posix.lib
    (Sim.host_denying "ios/120x120.png" Demo.manifest)
    "site/_pwa" (Some "/opt/build-tools/assets/appicon.png")
    ([Def.make "ios" 120 120] ++ [Def.make "ios" 180 180])
    ["png"; "svg"] "out/pwa" (JS.Str "#fff") Demo.files
  = @AssetGenerator.buildImages Posix.lib
      (Sim.host_denying "ios/120x120.png" Demo.manifest)
      "site/_pwa" (Some "/opt/build-tools/assets/appicon.png")
      [Def.make "ios" 120 120]
      ["png"; "svg"] "out/pwa" (JS.Str "#fff") Demo.files.
Proof.
  apply (proj2 (@X15_buildImages_in_two_parts
                  Posix.lib (Sim.host_denying "ios/120x120.png" Demo.manifest)
                  "site/_pwa" (Some "/opt/build-tools/assets/appicon.png")
                  [Def.make "ios" 120 120] [Def.make "ios" 180 180]
                  ["png"; "svg"] "out/pwa" (JS.Str "#fff") Demo.files)
           "EACCES: ios/120x120.png").
  reflexivity.
Defined.

(** The [convert] of the first icon of the example run has the background
    of the example manifest. *)
Lemma X16_witness :
  nth 4 [ JS.Str "/opt/build-tools/assets/appicon.png";
          JS.Str "-resize"; JS.Str "120x120^";
          JS.Str "-background"; JS.Str "#fff";
          JS.Str "-compose"; JS.Str "Copy";
          JS.Str "-gravity"; JS.Str "center";
          JS.Str "-extent"; JS.Str "120x120";
          JS.Str "out/pwa/ios/120x120" ] JS.Null
  = JS.Str "#fff".
Proof.
  destruct (@X16_every_command_scales_with_the_manifest_background
              Demo.settings Posix.lib (Sim.host Demo.manifest) Demo.scope
              Demo.opts "site" "out" Demo.files "convert"
              [ JS.Str "/opt/build-tools/assets/appicon.png";
                JS.Str "-resize"; JS.Str "120x120^";
                JS.Str "-background"; JS.Str "#fff";
                JS.Str "-compose"; JS.Str "Copy";
                JS.Str "-gravity"; JS.Str "center";
                JS.Str "-extent"; JS.Str "120x120";
                JS.Str "out/pwa/ios/120x120" ])
    as (m & base & d & Hm & _ & _ & _ & H4 & _).
  - vm_compute. do 10 right. left. reflexivity.
  - injection Hm as <-. exact H4.
Defined.

(** The header of the example manifest, from the example host. *)
Lemma X17_witness :
  outcome (@HeaderGenerator.make Demo.settings (Sim.host Demo.manifest)
             Demo.opts "site" Demo.files)
  = Ok (@HeaderGenerator.html Demo.settings Demo.opts Demo.pwa).
Proof.
  apply (proj1 (proj2 (proj2
           (@X17_header_generator_only_loads_the_manifest
              Demo.settings (Sim.host Demo.manifest) Demo.opts "site"
              Demo.files)))
           Demo.manifest).
  reflexivity.
Defined.

(** On a file system that cannot be written the run stops at the
    removal. *)
Lemma X18_witness :
  @AssetGenerator.make Demo.settings Posix.lib
    (Sim.host_read_only Demo.manifest) Demo.scope Demo.opts "site" "out"
    Demo.files
  = (Rejected "EROFS: out/pwa", Demo.files,
     [ EvLoadManifest Demo.opts "site"; EvRmrf "out/pwa" ]).
Proof.
  apply (proj2 (@X18_image_step_stops_at_a_rejected_start
                  Demo.settings Posix.lib (Sim.host_read_only Demo.manifest)
                  Demo.scope Demo.opts "site" "out" Demo.files)
           Demo.manifest Demo.files "EROFS: out/pwa" Demo.files);
    reflexivity.
Defined.

(* ================================================================== *)
(** ** The header of the example manifests *)

Lemma no_line_feed_by_forallb (l : list string) :
  forallb (fun t => negb (has_line_feed t)) l = true ->
  forall text, In text l -> has_line_feed text = false.
Proof.
  intros H text Ht. rewrite forallb_forall in H. specialize (H text Ht).
  now destruct (has_line_feed text).
Qed.

(** C5 does not hold as stated: the example manifest whose name is the text
    of the two tags does not ask for the install banner, and its header,
    printed with the default options, holds both tags, inside the title. *)
Lemma C5_counterexample :
  JS.truthy (showInstallBanner (ios Demo.pwa_injected)) = false
  /\ occurs_in
       (JS.q "<link rel='stylesheet' href='"
          +:+ @InstallBannerCSSURL Demo.settings +:+ JS.q "' />")
       (@HeaderGenerator.html Demo.settings {| indentSize := None |}
          Demo.pwa_injected)
  /\ occurs_in
       (JS.q "<script src='" +:+ @InstallBannerJSURL Demo.settings
          +:+ JS.q "'></script>")
       (@HeaderGenerator.html Demo.settings {| indentSize := None |}
          Demo.pwa_injected).
Proof.
  split; [reflexivity|].
  split; apply occursb_sound; vm_compute; reflexivity.
Qed.

(** The first example manifest does not ask for the install banner and
    holds no ['<']: its header has neither tag.  The full-screen example
    asks for it, and its header has both tags on their lines. *)
Lemma C5_witness :
  ~ occurs_in
      (JS.q "<link rel='stylesheet' href='https://example.org/banner.css' />")
      (@HeaderGenerator.html Demo.settings {| indentSize := None |} Demo.pwa)
  /\ ~ occurs_in
         (JS.q "<script src='https://example.org/banner.js'></script>")
         (@HeaderGenerator.html Demo.settings {| indentSize := None |} Demo.pwa)
  /\ occurs_in
       ("    "
          +:+ JS.q "<link rel='stylesheet' href='https://example.org/banner.css' />"
          +:+ JS.nl +:+ "    "
          +:+ JS.q "<script src='https://example.org/banner.js'></script>"
          +:+ JS.nl)
       (@HeaderGenerator.html Demo.settings {| indentSize := None |}
          Demo.pwa_banner).
Proof.
  split; [|split].
  - intros H.
    apply (proj1 (proj1 (proj2 (proj2 (@C5_install_banner_iff_amended
                                         Demo.settings Demo.pwa))
                           eq_refl eq_refl eq_refl))) in H.
    discriminate H.
  - intros H.
    apply (proj1 (proj2 (proj2 (proj2 (@C5_install_banner_iff_amended
                                         Demo.settings Demo.pwa))
                           eq_refl eq_refl eq_refl))) in H.
    discriminate H.
  - apply (proj1 (@C5_install_banner_iff_amended Demo.settings Demo.pwa_banner)).
    reflexivity.
Defined.

(** C10 does not hold as stated: the header of the example manifest whose
    name runs over three lines has a line of three spaces, which is blank
    and not empty. *)
Lemma C10_counterexample :
  ~ blank_lines_empty
      (@HeaderGenerator.html Demo.settings Demo.opts Demo.pwa_multiline).
Proof.
  intros H. specialize (H "   ").
  assert (E : "   " = "").
  { apply H.
    - apply In_by_eqb. vm_compute. reflexivity.
    - reflexivity. }
  discriminate E.
Qed.

(** No text of the first example holds a line feed: the blank lines of its
    header are six empty lines, and a line of four spaces is not among the
    lines of the header. *)
Lemma C10_witness :
  filter is_blank
         (lines (@HeaderGenerator.html Demo.settings Demo.opts Demo.pwa))
  = [""; ""; ""; ""; ""; ""]
  /\ blank_lines_empty (@HeaderGenerator.html Demo.settings Demo.opts Demo.pwa).
Proof.
  apply (proj2 (@C10_blank_lines_amended Demo.settings Demo.opts Demo.pwa)).
  apply no_line_feed_by_forallb. vm_compute. reflexivity.
Defined.

(** The header of the first example, with the default options: its only
    startup-image [href] line is that of the ['ios'] definition of the
    example table, behind eight spaces. *)
Lemma X7_witness :
  filter is_startup_href_line
         (lines (@HeaderGenerator.html Demo.settings Demo.opts Demo.pwa))
  = [ JS.q "        href='pwa/splashscreen/640x1136.png'" ].
Proof.
  apply (proj2 (proj2 (@X7_startup_images_linked_for_ios_only
                         Demo.settings Demo.opts Demo.pwa))).
  apply no_line_feed_by_forallb. vm_compute. reflexivity.
Defined.

(** On the example site the header generator returns the header of the
    example manifest, whose icon lines are those of the two ['ios'] entries
    of the example icon table; the run of the image step is fulfilled and
    writes the three icons of the table, the ['std'] one included, so the
    header has fewer icon lines than the table has entries. *)
Lemma C8_witness :
  outcome (@HeaderGenerator.make Demo.settings (Sim.host Demo.manifest)
             Demo.opts "site" Demo.files)
  = Ok (@HeaderGenerator.html Demo.settings Demo.opts Demo.pwa)
  /\ filter is_icon_line
            (lines (@HeaderGenerator.html Demo.settings Demo.opts Demo.pwa))
     = [ JS.q "    <link rel='apple-touch-icon' sizes='120x120' href='pwa/appicon/120x120.png' />";
         JS.q "    <link rel='apple-touch-icon' sizes='180x180' href='pwa/appicon/180x180.png' />" ]
  /\ In "out/pwa/std/192x192"
        (writes (trace (@AssetGenerator.make Demo.settings Posix.lib
                          (Sim.host Demo.manifest) Demo.scope Demo.opts
                          "site" "out" Demo.files)))
  /\ (length (filter is_icon_line
                     (lines (@HeaderGenerator.html Demo.settings Demo.opts
                               Demo.pwa)))
      < 3)%nat.
Proof.
  assert (Hlf : forall text,
             In text (@printed Demo.settings Demo.opts Demo.pwa) ->
             has_line_feed text = false)
    by (apply no_line_feed_by_forallb; vm_compute; reflexivity).
  pose proof (@C8_icons_built_include_icons_linked
                Demo.settings Posix.lib (Sim.host Demo.manifest) Demo.scope
                Demo.opts "site" Demo.files Demo.manifest
                Demo.opts "site" "out" Demo.files eq_refl)
    as (Hmake & _ & _ & Hlines & _ & Hrun & Hstd).
  split; [exact Hmake|]. split; [exact (Hlines Hlf)|].
  assert (Hok : outcome (@AssetGenerator.make Demo.settings Posix.lib
                           (Sim.host Demo.manifest) Demo.scope Demo.opts
                           "site" "out" Demo.files) = Ok tt)
    by (vm_compute; reflexivity).
  destruct (Hrun Hok) as (_ & Hall & _).
  split.
  - apply (Hall (Def.make "std" 192 192)). cbn. auto.
  - destruct (Hstd (Def.make "std" 192 192)) as [_ H];
      [cbn; auto | discriminate | exact (H Hlf)].
Defined.
